(** * Task board: the GraphQL resolvers of server.js and the client's addTask

    The server keeps one SQLite table, [tasks], and a PubSub object.  Each
    resolver runs one or two SQL statements and, on success, publishes one
    event on the channel TASK_UPDATED.  The embedding below passes the
    server state explicitly: the table in B-tree (rowid) order, the
    AUTOINCREMENT counter kept in sqlite_sequence, and the list of the
    events published so far.  A resolver is modelled as one atomic step, the
    way a single request runs it; CURRENT_TIMESTAMP is read from the clock
    and is an argument of every INSERT.

    Strings are [string], one character per code unit below 256; a
    timestamp is the clock reading in seconds (CURRENT_TIMESTAMP yields the
    text YYYY-MM-DD HH:MM:SS, which is ordered the same way).  A rowid is a
    signed 64-bit integer, kept as a [Z] with the engine's SQLITE_FULL
    error at the largest one; this.lastID is a JavaScript number, the
    double nearest to the rowid, so beyond 2^53 it may name another row.

    Definitions come first, then lemmas about the sorter and the rowids,
    then the statements of the specification, C1 to C10, and last further
    properties of the resolvers and of the page's handlers. *)

From Stdlib Require Import ZArith List String Ascii Bool Lia.
From Stdlib Require Import Permutation Sorted.
Import ListNotations.
Local Open Scope string_scope.
Local Open Scope list_scope.
Local Open Scope Z_scope.

(** ** Data model *)

(** A row of
    CREATE TABLE tasks (id INTEGER PRIMARY KEY AUTOINCREMENT,
                        title TEXT NOT NULL,
                        status TEXT NOT NULL DEFAULT 'todo',
                        created_at DATETIME DEFAULT CURRENT_TIMESTAMP). *)
Record Task : Type := mkTask {
  id : Z;
  title : string;
  status : string;
  created_at : Z
}.

(** The [id] argument of a mutation has GraphQL type ID and reaches the
    resolver as text.  Compared with the INTEGER PRIMARY KEY column, a text
    that reads as an integer is that integer ([IdInt]); any other text
    ([IdText]) equals no rowid. *)
Inductive ID : Type :=
| IdInt (z : Z)
| IdText (s : string).

Definition rowid_of (i : ID) : option Z :=
  match i with
  | IdInt z => Some z
  | IdText _ => None
  end.

(** The in-memory database: the rows of [tasks] in rowid order and the
    largest rowid ever handed out, which AUTOINCREMENT keeps in
    sqlite_sequence. *)
Record Database : Type := mkDatabase {
  tasks_table : list Task;
  sqlite_sequence : Z
}.

(** What is published under the key taskUpdated: the re-fetched row (which
    is undefined when the SELECT found nothing) or the object
    { id, deleted: true }. *)
Inductive Payload : Type :=
| TaskUpdated (row : option Task)
| TaskDeleted (i : ID) (deleted : bool).

Record Event : Type := mkEvent {
  channel : string;
  payload : Payload
}.

(** The process state the resolvers close over: [db] and [pubsub]. *)
Record Server : Type := mkServer {
  db : Database;
  pubsub : list Event
}.

Inductive SqlError : Type :=
| SQLITE_FULL.

(** Outcome of the promise a resolver returns. *)
Inductive Promise (A : Type) : Type :=
| Resolved (a : A)
| Rejected (err : SqlError).
Arguments Resolved {A} a.
Arguments Rejected {A} err.

(** ** The SQL statements *)

Definition MAX_ROWID : Z := 9223372036854775807.

(** Largest rowid of the table, if it has a row. *)
Fixpoint last_rowid (rows : list Task) : option Z :=
  match rows with
  | [] => None
  | r :: rest =>
      match last_rowid rest with
      | None => Some (id r)
      | Some m => Some (Z.max (id r) m)
      end
  end.

(** The rowid AUTOINCREMENT picks: one more than the largest rowid of the
    table (1 for an empty table), raised to one more than sqlite_sequence;
    SQLITE_FULL once the largest rowid has been used. *)
Definition new_rowid (d : Database) : option Z :=
  let v := match last_rowid (tasks_table d) with
           | None => Some 1
           | Some m => if MAX_ROWID <=? m then None else Some (m + 1)
           end in
  match v with
  | None => None
  | Some v =>
      if sqlite_sequence d =? MAX_ROWID then None
      else Some (Z.max v (sqlite_sequence d + 1))
  end.

(** INSERT INTO tasks (title, status) VALUES (?, ?), run at clock reading
    [now]; yields the rowid of the new row. *)
Definition sql_insert (now : Z) (t s : string) (d : Database)
  : SqlError + (Z * Database) :=
  match new_rowid d with
  | None => inl SQLITE_FULL
  | Some v =>
      inr (v, {| tasks_table := tasks_table d ++ [mkTask v t s now];
                 sqlite_sequence := v |})
  end.

(** Integers up to 2^53 in size are exact as JavaScript numbers. *)
Definition MAX_EXACT : Z := 9007199254740992.

(** The double nearest to a positive integer, as the integer it is worth:
    53 significant bits, a tie going to the even significand. *)
Definition nearest_double (a : Z) : Z :=
  let e := Z.log2 a - 52 in
  if e <=? 0 then a
  else
    let ulp := 2 ^ e in
    let q := a / ulp in
    let r := a mod ulp in
    if 2 * r <? ulp then q * ulp
    else if ulp <? 2 * r then (q + 1) * ulp
    else if Z.even q then q * ulp
    else (q + 1) * ulp.

(** The number the binding stores in this.lastID for a rowid. *)
Definition double_of_int64 (v : Z) : Z :=
  Z.sgn v * nearest_double (Z.abs v).

Definition id_matches (i : ID) (r : Task) : bool :=
  match rowid_of i with
  | Some z => id r =? z
  | None => false
  end.

(** SELECT * FROM tasks WHERE id = ?, through db.get: the first row or
    undefined. *)
Definition sql_select_by_id (i : ID) (d : Database) : option Task :=
  find (id_matches i) (tasks_table d).

Definition set_status (i : ID) (s : string) (r : Task) : Task :=
  if id_matches i r
  then {| id := id r; title := title r; status := s;
          created_at := created_at r |}
  else r.

(** UPDATE tasks SET status = ? WHERE id = ? *)
Definition sql_update_status (s : string) (i : ID) (d : Database)
  : Database :=
  {| tasks_table := map (set_status i s) (tasks_table d);
     sqlite_sequence := sqlite_sequence d |}.

(** DELETE FROM tasks WHERE id = ? *)
Definition sql_delete (i : ID) (d : Database) : Database :=
  {| tasks_table := filter (fun r => negb (id_matches i r)) (tasks_table d);
     sqlite_sequence := sqlite_sequence d |}.

(** The sorter behind ORDER BY created_at DESC: rows are fed in scan order
    and a row is placed in front of the first row that is not newer, so
    rows with equal keys stay in scan order. *)
Fixpoint sorter_insert (r : Task) (sorted : list Task) : list Task :=
  match sorted with
  | [] => [r]
  | x :: rest =>
      if created_at x <=? created_at r then r :: x :: rest
      else x :: sorter_insert r rest
  end.

Definition order_by_created_at_desc (rows : list Task) : list Task :=
  fold_right sorter_insert [] rows.

(** SELECT * FROM tasks ORDER BY created_at DESC, through db.all. *)
Definition sql_select_all (d : Database) : list Task :=
  order_by_created_at_desc (tasks_table d).

(** ** PubSub *)

Definition TASK_UPDATED : string := "TASK_UPDATED".

Definition publish (ch : string) (p : Payload) (srv : Server) : Server :=
  {| db := db srv; pubsub := pubsub srv ++ [mkEvent ch p] |}.

Definition with_db (d : Database) (srv : Server) : Server :=
  {| db := d; pubsub := pubsub srv |}.

(** ** Resolvers *)

Module Query.

(** tasks: () => db.all('SELECT * FROM tasks ORDER BY created_at DESC') *)
Definition tasks (srv : Server) : Promise (list Task) :=
  Resolved (sql_select_all (db srv)).

End Query.

Module Mutation.

(** createTask: INSERT; on error reject, else SELECT the row by this.lastID
    (the new rowid as a JavaScript number), publish what was found and
    resolve with it. *)
Definition createTask (now : Z) (t : string) (srv : Server)
  : Promise (option Task) * Server :=
  match sql_insert now t "todo" (db srv) with
  | inl err => (Rejected err, srv)
  | inr (rowid, d) =>
      let lastID := double_of_int64 rowid in
      let srv1 := with_db d srv in
      let row := sql_select_by_id (IdInt lastID) (db srv1) in
      (Resolved row, publish TASK_UPDATED (TaskUpdated row) srv1)
  end.

(** updateTaskStatus: UPDATE, then SELECT by the same id, publish the row
    found (or undefined) and resolve with it. *)
Definition updateTaskStatus (i : ID) (s : string) (srv : Server)
  : Promise (option Task) * Server :=
  let srv1 := with_db (sql_update_status s i (db srv)) srv in
  let row := sql_select_by_id i (db srv1) in
  (Resolved row, publish TASK_UPDATED (TaskUpdated row) srv1).

(** deleteTask: DELETE, publish { id, deleted: true }, resolve with true. *)
Definition deleteTask (i : ID) (srv : Server) : Promise bool * Server :=
  let srv1 := with_db (sql_delete i (db srv)) srv in
  (Resolved true, publish TASK_UPDATED (TaskDeleted i true) srv1).

End Mutation.

(** ** Start-up *)

Definition empty_server : Server :=
  {| db := {| tasks_table := []; sqlite_sequence := 0 |}; pubsub := [] |}.

(** One stmt.run of the prepared INSERT inside db.serialize: no promise, no
    publication. *)
Definition seed (now : Z) (t s : string) (srv : Server) : Server :=
  match sql_insert now t s (db srv) with
  | inl _ => srv
  | inr (_, d) => with_db d srv
  end.

(** The server after db.serialize has run; [t1 t2 t3] are the clock
    readings of the three sample inserts. *)
Definition boot (t1 t2 t3 : Z) : Server :=
  seed t3 "Deploy to production" "done"
    (seed t2 "Review pull requests" "in_progress"
       (seed t1 "Design new landing page" "todo" empty_server)).

(** ** Requests *)

(** The operations a client can post to /graphql. *)
Inductive Request : Type :=
| ReqTasks
| ReqCreateTask (t : string)
| ReqUpdateTaskStatus (i : ID) (s : string)
| ReqDeleteTask (i : ID).

(** What the resolver's promise settles to, per operation.  (The executor's
    own check of a null against the type Task! is not modelled.) *)
Inductive Response : Type :=
| TasksResult (p : Promise (list Task))
| TaskResult (p : Promise (option Task))
| BooleanResult (p : Promise bool).

(** The schema routes each operation to its resolver; [now] is the clock
    reading while the request is served. *)
Definition execute (now : Z) (req : Request) (srv : Server)
  : Response * Server :=
  match req with
  | ReqTasks => (TasksResult (Query.tasks srv), srv)
  | ReqCreateTask t =>
      let (p, srv') := Mutation.createTask now t srv in (TaskResult p, srv')
  | ReqUpdateTaskStatus i s =>
      let (p, srv') := Mutation.updateTaskStatus i s srv in
      (TaskResult p, srv')
  | ReqDeleteTask i =>
      let (p, srv') := Mutation.deleteTask i srv in (BooleanResult p, srv')
  end.

(** Requests served one after the other. *)
Fixpoint serve (reqs : list (Z * Request)) (srv : Server)
  : list Response * Server :=
  match reqs with
  | [] => ([], srv)
  | (now, req) :: rest =>
      let (r, srv1) := execute now req srv in
      let (rs, srv2) := serve rest srv1 in
      (r :: rs, srv2)
  end.

(** The states the server can be in: booted, then any requests. *)
Definition reachable (srv : Server) : Prop :=
  exists t1 t2 t3 reqs, srv = snd (serve reqs (boot t1 t2 t3)).

(** createTask called once per (clock reading, title) pair, in order. *)
Fixpoint create_each (calls : list (Z * string)) (srv : Server)
  : list (Promise (option Task)) * Server :=
  match calls with
  | [] => ([], srv)
  | (now, t) :: rest =>
      let (p, srv1) := Mutation.createTask now t srv in
      let (ps, srv2) := create_each rest srv1 in
      (p :: ps, srv2)
  end.

(** ** Vocabulary of the statements *)

Definition ids (rows : list Task) : list Z := map id rows.

(** Index of the row with rowid [i] in a result list. *)
Fixpoint position (i : Z) (rows : list Task) : option nat :=
  match rows with
  | [] => None
  | r :: rest =>
      if id r =? i then Some O
      else option_map S (position i rest)
  end.

(** Both rows are listed and [a] comes first. *)
Definition listed_before (a b : Task) (rows : list Task) : bool :=
  match position (id a) rows, position (id b) rows with
  | Some p, Some q => Nat.ltb p q
  | _, _ => false
  end.

(** Newest first, ties allowed. *)
Definition created_at_desc (rows : list Task) : Prop :=
  StronglySorted (fun a b => created_at b <= created_at a) rows.

(** Rowids are still [n] short of the largest one, so the next [n]
    INSERTs cannot hit SQLITE_FULL. *)
Definition room_for (n : Z) (d : Database) : Prop :=
  0 <= sqlite_sequence d /\
  sqlite_sequence d + n <= MAX_ROWID /\
  Forall (fun r => id r + n <= MAX_ROWID) (tasks_table d).

(** As [room_for], with the bound at which this.lastID stops being exact:
    the next [n] rowids are at most 2^53. *)
Definition exact_for (n : Z) (d : Database) : Prop :=
  0 <= sqlite_sequence d /\
  sqlite_sequence d + n <= MAX_EXACT /\
  Forall (fun r => id r + n <= MAX_EXACT) (tasks_table d).

(** A row with the given id is in the table. *)
Definition present (i : ID) (d : Database) : Prop :=
  exists r, In r (tasks_table d) /\ rowid_of i = Some (id r).

(** [new] is [old] with at most the status replaced: by [s] when [i]
    names the row, by nothing otherwise. *)
Definition status_changed_only (i : ID) (s : string) (old new : Task)
  : Prop :=
  id new = id old /\ title new = title old /\
  created_at new = created_at old /\
  (rowid_of i = Some (id old) -> status new = s) /\
  (rowid_of i <> Some (id old) -> new = old).

(** The rows createTask returned while [reqs] were served, oldest first. *)
Fixpoint created_rows (reqs : list (Z * Request)) (srv : Server)
  : list Task :=
  match reqs with
  | [] => []
  | (now, req) :: rest =>
      let (r, srv1) := execute now req srv in
      match req, r with
      | ReqCreateTask _, TaskResult (Resolved (Some row)) =>
          row :: created_rows rest srv1
      | _, _ => created_rows rest srv1
      end
  end.

(** How one request may change the table, seen from the rows that were
    there: a create leaves them alone and appends at most one row, a status
    update keeps every row in place under its id, a delete drops rows and
    leaves the others alone, a query changes nothing. *)
Definition keeps_ids (req : Request) (old new : list Task) : Prop :=
  match req with
  | ReqTasks => new = old
  | ReqCreateTask _ => new = old \/ exists row, new = old ++ [row]
  | ReqUpdateTaskStatus _ _ => Forall2 (fun o n => id n = id o) old new
  | ReqDeleteTask _ => exists keep, new = filter keep old
  end.

(** The table is in rowid order and no rowid exceeds the counter. *)
Definition rowids_in_order (d : Database) : Prop :=
  StronglySorted Z.lt (ids (tasks_table d)) /\
  Forall (fun r => id r <= sqlite_sequence d) (tasks_table d).

(** ** The client *)

Module Client.

(** The page state: the text of #taskInput, the global [tasks], and the
    three columns renderTasks last filled. *)
Record Page : Type := mkPage {
  taskInput : string;
  tasks : list Task;
  columns : list (string * list Task)
}.

(** WhiteSpace and LineTerminator code units below 256: TAB, LF, VT, FF,
    CR, SP and NBSP. *)
Definition is_white_space (c : ascii) : bool :=
  let n := Z.of_N (N_of_ascii c) in
  ((9 <=? n) && (n <=? 13)) || (n =? 32) || (n =? 160).

Fixpoint trimStart (s : string) : string :=
  match s with
  | EmptyString => EmptyString
  | String c rest => if is_white_space c then trimStart rest else s
  end.

Fixpoint trimEnd (s : string) : string :=
  match s with
  | EmptyString => EmptyString
  | String c rest =>
      match trimEnd rest with
      | EmptyString =>
          if is_white_space c then EmptyString else String c EmptyString
      | kept => String c kept
      end
  end.

(** String.prototype.trim *)
Definition trim (s : string) : string := trimEnd (trimStart s).

Fixpoint all_white_space (s : string) : bool :=
  match s with
  | EmptyString => true
  | String c rest => is_white_space c && all_white_space rest
  end.

Definition first_char (s : string) : option ascii :=
  match s with
  | EmptyString => None
  | String c _ => Some c
  end.

Fixpoint last_char (s : string) : option ascii :=
  match s with
  | EmptyString => None
  | String c EmptyString => Some c
  | String _ rest => last_char rest
  end.

(** Neither the first nor the last character is white space. *)
Definition bare (s : string) : Prop :=
  (forall c, first_char s = Some c -> is_white_space c = false) /\
  (forall c, last_char s = Some c -> is_white_space c = false).

(** !title *)
Definition falsy (s : string) : bool :=
  match s with
  | EmptyString => true
  | String _ _ => false
  end.

Definition renderTasks (ts : list Task) : list (string * list Task) :=
  map (fun st => (st, filter (fun t => String.eqb (status t) st) ts))
      ["todo"; "in_progress"; "done"].

(** graphqlRequest posts one operation; the server answers it at clock
    reading [now]. *)
Definition graphqlRequest (now : Z) (req : Request) (srv : Server)
  : Response * Server :=
  execute now req srv.

(** loadTasks: fetch the list, store it in [tasks], render.  Without
    data.tasks the function throws before the assignment. *)
Definition loadTasks (now : Z) (pg : Page) (srv : Server)
  : list Request * Page * Server :=
  let (r, srv1) := graphqlRequest now ReqTasks srv in
  match r with
  | TasksResult (Resolved rows) =>
      ([ReqTasks],
       {| taskInput := taskInput pg; tasks := rows;
          columns := renderTasks rows |},
       srv1)
  | _ => ([ReqTasks], pg, srv1)
  end.

(** addTask; [now1] and [now2] are the clock readings at the server while
    it serves the mutation and the reload.  The result lists the requests
    posted, in order. *)
Definition addTask (now1 now2 : Z) (pg : Page) (srv : Server)
  : list Request * Page * Server :=
  let title := trim (taskInput pg) in
  if falsy title then ([], pg, srv)
  else
    let (_, srv1) := graphqlRequest now1 (ReqCreateTask title) srv in
    let pg1 := {| taskInput := ""; tasks := tasks pg;
                  columns := columns pg |} in
    let '(sent, pg2, srv2) := loadTasks now2 pg1 srv1 in
    (ReqCreateTask title :: sent, pg2, srv2).

End Client.

(** ** The page's other handlers *)

Module ClientActions.
Import Client.


(** deleteTask(id): post the mutation, then reload. *)
Definition deleteTask (now1 now2 : Z) (i : ID)
    (pg : Page) (srv : Server) : list Request * Page * Server :=
  let (_, srv1) := graphqlRequest now1 (ReqDeleteTask i) srv in
  let '(sent, pg1, srv2) := loadTasks now2 pg srv1 in
  (ReqDeleteTask i :: sent, pg1, srv2).

End ClientActions.

(** ** Vocabulary of the further properties *)

(** The three statuses renderTasks has a column for. *)
Definition known_status (s : string) : bool :=
  String.eqb s "todo" || String.eqb s "in_progress" || String.eqb s "done".

(** Task [t] is on the board, in the column of [st]. *)
Definition shown_in (st : string) (t : Task)
    (cols : list (string * list Task)) : Prop :=
  exists ts, In (st, ts) cols /\ In t ts.

Definition shown (t : Task) (cols : list (string * list Task)) : Prop :=
  exists st, shown_in st t cols.

(** The request was a mutation and its promise resolved. *)
Definition settled_mutation (req : Request) (r : Response) : bool :=
  match req, r with
  | ReqTasks, _ => false
  | _, TaskResult (Resolved _) => true
  | _, BooleanResult (Resolved _) => true
  | _, _ => false
  end.

Definition settled_mutations (reqs : list (Z * Request))
    (rs : list Response) : nat :=
  List.length
    (filter (fun qr => settled_mutation (snd (fst qr)) (snd qr))
       (combine reqs rs)).

(** * Properties *)

(** ** The sorter *)

Section Sorter.

Lemma sorter_insert_perm (r : Task) (l : list Task) :
  Permutation (sorter_insert r l) (r :: l).
Proof.
  induction l as [| x l IH]; simpl.
  - reflexivity.
  - destruct (created_at x <=? created_at r).
    + reflexivity.
    + rewrite IH. apply perm_swap.
Qed.

Lemma order_by_perm (l : list Task) :
  Permutation (order_by_created_at_desc l) l.
Proof.
  induction l as [| r l IH]; simpl.
  - constructor.
  - rewrite sorter_insert_perm. now constructor.
Qed.

Lemma sorter_insert_sorted (r : Task) (l : list Task) :
  created_at_desc l -> created_at_desc (sorter_insert r l).
Proof.
  unfold created_at_desc.
  induction 1 as [| x l Hl IH Hx]; simpl.
  - repeat constructor.
  - destruct (created_at x <=? created_at r) eqn:E.
    + apply Z.leb_le in E. constructor.
      * now constructor.
      * constructor; [exact E |].
        eapply Forall_impl; [| exact Hx]. simpl. intros; lia.
    + apply Z.leb_gt in E. constructor; [exact IH |].
      eapply Permutation_Forall.
      * symmetry. apply sorter_insert_perm.
      * constructor; [lia | exact Hx].
Qed.

Lemma order_by_sorted (l : list Task) :
  created_at_desc (order_by_created_at_desc l).
Proof.
  induction l as [| r l IH]; simpl.
  - constructor.
  - now apply sorter_insert_sorted.
Qed.

(** A row that sits behind rows all strictly newer, in front of rows none
    of which is newer, is where the sorter puts it. *)
Lemma sorter_insert_filter (p : Task -> bool) (r : Task) (l : list Task) :
  created_at_desc l ->
  filter p (sorter_insert r l) =
  if p r then sorter_insert r (filter p l) else filter p l.
Proof.
  unfold created_at_desc.
  induction 1 as [| x l Hl IH Hx]; simpl.
  - now destruct (p r).
  - destruct (created_at x <=? created_at r) eqn:E; simpl.
    + destruct (p r) eqn:Pr, (p x) eqn:Px; simpl; rewrite ?E; try reflexivity.
      (* x is dropped: r still goes in front of what is left of l *)
      apply Z.leb_le in E.
      assert (H : Forall (fun y => created_at y <= created_at r)
                    (filter p l)).
      { apply Forall_forall. intros y Hy. apply filter_In in Hy.
        rewrite Forall_forall in Hx. specialize (Hx y (proj1 Hy)). lia. }
      destruct (filter p l) as [| y l']; [reflexivity |].
      simpl. inversion H as [| ? ? Hy _]; subst.
      apply Z.leb_le in Hy. now rewrite Hy.
    + rewrite IH.
      destruct (p r), (p x); simpl; rewrite ?E; reflexivity.
Qed.

Lemma order_by_filter (p : Task -> bool) (l : list Task) :
  order_by_created_at_desc (filter p l) =
  filter p (order_by_created_at_desc l).
Proof.
  induction l as [| r l IH]; simpl; [reflexivity |].
  rewrite sorter_insert_filter by apply order_by_sorted.
  destruct (p r); simpl; now rewrite IH.
Qed.



End Sorter.


(** ** Positions in a result list *)

Lemma position_some (i : Z) (rows : list Task) :
  In i (ids rows) -> exists n, position i rows = Some n.
Proof.
  induction rows as [| r rows IH]; simpl; [tauto |].
  intros [H | H].
  - rewrite H, Z.eqb_refl. eauto.
  - destruct (id r =? i); [eauto |].
    destruct (IH H) as [n Hn]. rewrite Hn. simpl. eauto.
Qed.

Lemma position_none (i : Z) (rows : list Task) :
  ~ In i (ids rows) -> position i rows = None.
Proof.
  induction rows as [| r rows IH]; simpl; [reflexivity |].
  intros H. destruct (Z.eqb_spec (id r) i) as [E | E]; [tauto |].
  rewrite IH; tauto.
Qed.

(** In a list sorted newest first, a strictly newer row is listed before
    an older one. *)
Lemma newer_listed_before (a b : Task) (rows : list Task) :
  created_at_desc rows -> NoDup (ids rows) ->
  In a rows -> In b rows ->
  created_at b < created_at a ->
  listed_before a b rows = true.
Proof.
  unfold created_at_desc, listed_before.
  induction 1 as [| x rows Hs IH Hx]; simpl; [tauto |].
  intros Hnd Ha Hb Hlt. inversion Hnd as [| ? ? Hnin Hnd']; subst.
  rewrite Forall_forall in Hx.
  destruct Ha as [Ha | Ha], Hb as [Hb | Hb]; subst.
  - lia.
  - rewrite Z.eqb_refl.
    destruct (Z.eqb_spec (id a) (id b)) as [E | E].
    + exfalso. apply Hnin. rewrite E. now apply in_map.
    + destruct (position_some (id b) rows) as [n Hn];
        [now apply in_map |].
      now rewrite Hn.
  - specialize (Hx a Ha). lia.
  - specialize (IH Hnd' Ha Hb Hlt).
    destruct (Z.eqb_spec (id x) (id a)) as [E | E].
    { exfalso. apply Hnin. rewrite E. now apply in_map. }
    destruct (Z.eqb_spec (id x) (id b)) as [E' | E'].
    { exfalso. apply Hnin. rewrite E'. now apply in_map. }
    destruct (position (id a) rows), (position (id b) rows);
      simpl in *; try discriminate. exact IH.
Qed.

(** ** Rowid allocation and the single statements *)

Lemma last_rowid_none (rows : list Task) :
  last_rowid rows = None -> rows = [].
Proof.
  destruct rows as [| r rows]; simpl; [reflexivity |].
  destruct (last_rowid rows); discriminate.
Qed.

Lemma last_rowid_bound (rows : list Task) (m : Z) :
  last_rowid rows = Some m -> Forall (fun r => id r <= m) rows.
Proof.
  revert m. induction rows as [| r rows IH]; simpl; intros m H.
  - constructor.
  - destruct (last_rowid rows) as [k |] eqn:E; inversion H; subst.
    + constructor; [lia |].
      eapply Forall_impl; [| apply IH; reflexivity]. simpl. intros; lia.
    + apply last_rowid_none in E. subst. repeat constructor. lia.
Qed.

Lemma last_rowid_in (rows : list Task) (m : Z) :
  last_rowid rows = Some m -> In m (ids rows).
Proof.
  revert m. induction rows as [| r rows IH]; simpl; intros m H;
    [discriminate |].
  destruct (last_rowid rows) as [k |] eqn:E; inversion H; subst.
  - destruct (Z.max_spec (id r) k) as [[_ ->] | [_ ->]]; auto.
  - now left.
Qed.

Lemma new_rowid_fresh (d : Database) (v : Z) :
  new_rowid d = Some v ->
  Forall (fun r => id r < v) (tasks_table d) /\ sqlite_sequence d < v.
Proof.
  unfold new_rowid. intros H.
  destruct (last_rowid (tasks_table d)) as [m |] eqn:E.
  - destruct (MAX_ROWID <=? m); [discriminate |].
    destruct (sqlite_sequence d =? MAX_ROWID); inversion H; subst.
    split; [| lia].
    eapply Forall_impl; [| apply (last_rowid_bound _ _ E)].
    simpl. intros; lia.
  - destruct (sqlite_sequence d =? MAX_ROWID); inversion H; subst.
    apply last_rowid_none in E. rewrite E. split; [constructor | lia].
Qed.

Lemma new_rowid_at_most (d : Database) (v : Z) :
  new_rowid d = Some v ->
  (exists r, In r (tasks_table d) /\ v = id r + 1) \/
  v = sqlite_sequence d + 1 \/ v = 1.
Proof.
  unfold new_rowid. intros H.
  destruct (last_rowid (tasks_table d)) as [m |] eqn:E.
  - destruct (MAX_ROWID <=? m); [discriminate |].
    destruct (sqlite_sequence d =? MAX_ROWID); inversion H; subst.
    apply last_rowid_in in E. unfold ids in E. apply in_map_iff in E.
    destruct E as [r [Hr Hin]].
    destruct (Z.max_spec (m + 1) (sqlite_sequence d + 1)) as [[_ ->] | [_ ->]].
    + auto.
    + left. exists r. split; [exact Hin | lia].
  - destruct (sqlite_sequence d =? MAX_ROWID); inversion H; subst.
    destruct (Z.max_spec 1 (sqlite_sequence d + 1)) as [[_ ->] | [_ ->]];
      auto.
Qed.

Lemma room_new_rowid (d : Database) :
  room_for 1 d -> exists v, new_rowid d = Some v.
Proof.
  intros (H0 & Hseq & Hrows). unfold new_rowid.
  assert (Hs : (sqlite_sequence d =? MAX_ROWID) = false)
    by (apply Z.eqb_neq; lia).
  destruct (last_rowid (tasks_table d)) as [m |] eqn:E.
  - apply last_rowid_in in E. unfold ids in E. apply in_map_iff in E.
    destruct E as [r [Hr Hin]]. rewrite Forall_forall in Hrows.
    specialize (Hrows r Hin).
    assert (Hm : (MAX_ROWID <=? m) = false) by (apply Z.leb_gt; lia).
    rewrite Hm, Hs. eauto.
  - rewrite Hs. eauto.
Qed.

Lemma find_fresh_last (v : Z) (rows : list Task) (row : Task) :
  Forall (fun r => id r < v) rows -> id row = v ->
  find (id_matches (IdInt v)) (rows ++ [row]) = Some row.
Proof.
  intros H Hv. induction H as [| x rows Hx _ IH]; simpl.
  - unfold id_matches; simpl. now rewrite Hv, Z.eqb_refl.
  - unfold id_matches at 1; simpl.
    destruct (Z.eqb_spec (id x) v); [lia | exact IH].
Qed.

Lemma nearest_double_exact (a : Z) :
  0 <= a <= MAX_EXACT -> nearest_double a = a.
Proof.
  intros [H0 H1]. unfold nearest_double. cbv zeta.
  destruct (Z.leb_spec (Z.log2 a - 52) 0) as [_ | Hlog]; [reflexivity |].
  assert (Hpos : 0 < a).
  { destruct (Z.eq_dec a 0) as [-> | Hne]; [simpl in Hlog |]; lia. }
  destruct (Z.log2_spec a Hpos) as [Hlow _].
  assert (H53 : 2 ^ 53 <= 2 ^ Z.log2 a)
    by (apply Z.pow_le_mono_r; lia).
  assert (Ha : a = MAX_EXACT) by (unfold MAX_EXACT in *; lia).
  subst a. reflexivity.
Qed.

Lemma double_of_int64_exact (v : Z) :
  - MAX_EXACT <= v <= MAX_EXACT -> double_of_int64 v = v.
Proof.
  intros H. unfold double_of_int64.
  rewrite nearest_double_exact by lia. destruct v; simpl; lia.
Qed.

Lemma exact_room (n : Z) (d : Database) : exact_for n d -> room_for n d.
Proof.
  intros (H0 & Hs & Hr). unfold room_for, MAX_ROWID.
  unfold MAX_EXACT in *. split; [exact H0 |]. split; [lia |].
  eapply Forall_impl; [| exact Hr]. simpl. intros; lia.
Qed.

Lemma exact_new_rowid (d : Database) :
  exact_for 1 d -> exists v, new_rowid d = Some v /\ 1 <= v <= MAX_EXACT.
Proof.
  intros Hex. destruct (room_new_rowid _ (exact_room _ _ Hex)) as [v Hv].
  exists v. split; [exact Hv |].
  destruct Hex as (H0 & Hs & Hr).
  destruct (new_rowid_fresh _ _ Hv) as [_ Hlt].
  destruct (new_rowid_at_most _ _ Hv) as [[r [Hin ->]] | [-> | ->]].
  - rewrite Forall_forall in Hr. specialize (Hr r Hin). lia.
  - lia.
  - unfold MAX_EXACT. lia.
Qed.

(** What createTask does when AUTOINCREMENT hands out [v]: the row is
    inserted, and what is published and resolved is whatever row the
    table has under the number this.lastID. *)
Lemma createTask_outcome (now : Z) (t : string) (srv : Server) (v : Z) :
  new_rowid (db srv) = Some v ->
  let table := tasks_table (db srv) ++ [mkTask v t "todo" now] in
  let row := find (id_matches (IdInt (double_of_int64 v))) table in
  Mutation.createTask now t srv =
  (Resolved row,
   {| db := {| tasks_table := table; sqlite_sequence := v |};
      pubsub := pubsub srv ++ [mkEvent TASK_UPDATED (TaskUpdated row)] |}).
Proof.
  intros H table row. unfold Mutation.createTask, sql_insert. rewrite H.
  reflexivity.
Qed.

(** While [v] is exact as a number, that row is the inserted one. *)
Lemma createTask_inserted (now : Z) (t : string) (srv : Server) (v : Z) :
  new_rowid (db srv) = Some v ->
  - MAX_EXACT <= v <= MAX_EXACT ->
  let row := mkTask v t "todo" now in
  Mutation.createTask now t srv =
  (Resolved (Some row),
   {| db := {| tasks_table := tasks_table (db srv) ++ [row];
               sqlite_sequence := v |};
      pubsub := pubsub srv ++ [mkEvent TASK_UPDATED (TaskUpdated (Some row))]
   |}).
Proof.
  intros H Hv row. rewrite (createTask_outcome now t srv v H). cbv zeta.
  rewrite (double_of_int64_exact v Hv).
  rewrite (find_fresh_last v _ row); [reflexivity | | reflexivity].
  apply (new_rowid_fresh _ _ H).
Qed.

Lemma createTask_rejected (now : Z) (t : string) (srv : Server) :
  new_rowid (db srv) = None ->
  Mutation.createTask now t srv = (Rejected SQLITE_FULL, srv).
Proof.
  intros H. unfold Mutation.createTask, sql_insert. now rewrite H.
Qed.

Lemma not_present_no_match (i : ID) (d : Database) :
  ~ present i d ->
  Forall (fun r => id_matches i r = false) (tasks_table d).
Proof.
  intros H. apply Forall_forall. intros r Hr.
  unfold id_matches. destruct (rowid_of i) as [z |] eqn:E; [| reflexivity].
  apply Z.eqb_neq. intros Heq. apply H. exists r. split; [exact Hr |].
  now rewrite E, Heq.
Qed.

Lemma map_set_status_no_match (i : ID) (s : string) (rows : list Task) :
  Forall (fun r => id_matches i r = false) rows ->
  map (set_status i s) rows = rows.
Proof.
  induction 1 as [| r rows Hr _ IH]; simpl; [reflexivity |].
  unfold set_status at 1. now rewrite Hr, IH.
Qed.

Lemma find_no_match (i : ID) (rows : list Task) :
  Forall (fun r => id_matches i r = false) rows ->
  find (id_matches i) rows = None.
Proof.
  induction 1 as [| r rows Hr _ IH]; simpl; [reflexivity |].
  now rewrite Hr.
Qed.

Lemma id_matches_set_status (i j : ID) (s : string) (r : Task) :
  id_matches j (set_status i s r) = id_matches j r.
Proof.
  unfold set_status. now destruct (id_matches i r).
Qed.

Ltac exact_tac :=
  unfold exact_for, MAX_EXACT; simpl;
  repeat split; try lia; repeat constructor; simpl; lia.

Ltac room_tac :=
  unfold room_for, MAX_ROWID; simpl;
  repeat split; try lia; repeat constructor; simpl; lia.

Lemma set_status_changed_only (i : ID) (s : string) (r : Task) :
  status_changed_only i s r (set_status i s r).
Proof.
  unfold status_changed_only, set_status, id_matches.
  destruct (rowid_of i) as [z |]; simpl.
  - destruct (Z.eqb_spec (id r) z) as [E | E]; simpl;
      repeat split; try congruence.
  - repeat split; congruence.
Qed.



Lemma tasks_after_delete (i : ID) (srv : Server) :
  Query.tasks (snd (Mutation.deleteTask i srv)) =
  Resolved (filter (fun r => negb (id_matches i r)) (sql_select_all (db srv))).
Proof.
  unfold Query.tasks, sql_select_all; simpl. f_equal.
  apply order_by_filter.
Qed.

Lemma find_after_update (i : ID) (s : string) (rows : list Task) (r : Task) :
  In r rows -> rowid_of i = Some (id r) ->
  exists r', find (id_matches i) (map (set_status i s) rows) = Some r' /\
             status r' = s /\ rowid_of i = Some (id r').
Proof.
  intros Hin Hi. induction rows as [| x rows IH]; simpl; [contradiction |].
  rewrite id_matches_set_status.
  destruct (id_matches i x) eqn:E.
  - exists (set_status i s x). split; [reflexivity |].
    unfold set_status. rewrite E. simpl. split; [reflexivity |].
    unfold id_matches in E. rewrite Hi in E |- *.
    apply Z.eqb_eq in E. now rewrite E.
  - destruct Hin as [-> | Hin]; [| auto].
    unfold id_matches in E. rewrite Hi, Z.eqb_refl in E. discriminate.
Qed.

Lemma id_matches_iff (i : ID) (r : Task) :
  id_matches i r = true <-> rowid_of i = Some (id r).
Proof.
  unfold id_matches. destruct (rowid_of i) as [z |].
  - rewrite Z.eqb_eq. split; [intros -> | intros [= ->]]; reflexivity.
  - split; discriminate.
Qed.




(** ** Runs of createTask *)

Lemma createTask_cases (now : Z) (t : string) (srv : Server) :
  Mutation.createTask now t srv = (Rejected SQLITE_FULL, srv) \/
  exists v,
    new_rowid (db srv) = Some v /\
    Mutation.createTask now t srv =
    (Resolved
       (find (id_matches (IdInt (double_of_int64 v)))
          (tasks_table (db srv) ++ [mkTask v t "todo" now])),
     {| db := {| tasks_table :=
                   tasks_table (db srv) ++ [mkTask v t "todo" now];
                 sqlite_sequence := v |};
        pubsub := pubsub srv ++
                  [mkEvent TASK_UPDATED
                     (TaskUpdated
                        (find (id_matches (IdInt (double_of_int64 v)))
                           (tasks_table (db srv) ++
                            [mkTask v t "todo" now])))] |}).
Proof.
  destruct (new_rowid (db srv)) as [v |] eqn:E.
  - right. exists v. split; [reflexivity |].
    now apply createTask_outcome.
  - left. now apply createTask_rejected.
Qed.

Lemma NoDup_snoc {A : Type} (l : list A) (x : A) :
  NoDup l -> ~ In x l -> NoDup (l ++ [x]).
Proof.
  intros Hl Hx. eapply Permutation_NoDup.
  - apply Permutation_cons_append.
  - now constructor.
Qed.

Lemma fresh_not_in (v : Z) (rows : list Task) :
  Forall (fun r => id r < v) rows -> ~ In v (ids rows).
Proof.
  intros H Hin. unfold ids in Hin. apply in_map_iff in Hin.
  destruct Hin as [r [Hr Hin]]. rewrite Forall_forall in H.
  specialize (H r Hin). lia.
Qed.

Lemma ids_snoc (rows : list Task) (r : Task) :
  ids (rows ++ [r]) = ids rows ++ [id r].
Proof. unfold ids. now rewrite map_app. Qed.

Lemma exact_after_insert (n : Z) (d : Database) (v : Z) (r : Task) :
  0 <= n -> exact_for (n + 1) d -> new_rowid d = Some v -> id r = v ->
  exact_for n {| tasks_table := tasks_table d ++ [r];
                 sqlite_sequence := v |}.
Proof.
  intros Hn (H0 & Hseq & Hrows) Hv Hr.
  destruct (new_rowid_fresh _ _ Hv) as [_ Hlt].
  assert (Hvn : v + n <= MAX_EXACT).
  { destruct (new_rowid_at_most _ _ Hv) as [[x [Hx ->]] | [-> | ->]].
    - rewrite Forall_forall in Hrows. specialize (Hrows x Hx). lia.
    - lia.
    - lia. }
  unfold exact_for; simpl. split; [lia |]. split; [exact Hvn |].
  apply Forall_app. split.
  - eapply Forall_impl; [| exact Hrows]. simpl. intros; lia.
  - constructor; [lia | constructor].
Qed.

Lemma exact_for_less (n m : Z) (d : Database) :
  n <= m -> exact_for m d -> exact_for n d.
Proof.
  intros Hnm (H0 & Hs & Hr). split; [exact H0 |]. split; [lia |].
  eapply Forall_impl; [| exact Hr]. simpl. intros; lia.
Qed.

(** While the rowids stay exact as numbers, every call adds the row it
    resolves with; rows stay, rowids stay distinct, and the table grows by
    one row per call. *)
Lemma create_each_spec (calls : list (Z * string)) :
  forall srv,
    NoDup (ids (tasks_table (db srv))) ->
    exact_for (Z.of_nat (List.length calls)) (db srv) ->
    let results := fst (create_each calls srv) in
    let srv' := snd (create_each calls srv) in
    NoDup (ids (tasks_table (db srv'))) /\
    incl (tasks_table (db srv)) (tasks_table (db srv')) /\
    Forall2
      (fun call p =>
         exists row,
           p = Resolved (Some row) /\ title row = snd call /\
           status row = "todo" /\ created_at row = fst call /\
           In row (tasks_table (db srv')))
      calls results /\
    List.length (tasks_table (db srv')) =
    (List.length (tasks_table (db srv)) + List.length calls)%nat.
Proof.
  induction calls as [| [now t] calls IH]; intros srv Hnd Hex.
  - simpl. repeat split; [exact Hnd | apply incl_refl | constructor |].
    now rewrite Nat.add_0_r.
  - cbn [create_each].
    assert (H1 : exact_for 1 (db srv)).
    { apply (exact_for_less 1 (Z.of_nat (List.length ((now, t) :: calls))));
        [cbn [List.length]; lia | exact Hex]. }
    destruct (exact_new_rowid _ H1) as [v [Hv Hb]].
    rewrite (createTask_inserted now t srv v Hv) by lia.
    match goal with
    | |- context [create_each calls ?s] => set (srv1 := s)
    end.
    assert (Hnd1 : NoDup (ids (tasks_table (db srv1)))).
    { simpl. rewrite ids_snoc. apply NoDup_snoc; [exact Hnd |].
      apply fresh_not_in. apply (new_rowid_fresh _ _ Hv). }
    assert (Hex1 : exact_for (Z.of_nat (List.length calls)) (db srv1)).
    { apply exact_after_insert; [lia | | exact Hv | reflexivity].
      replace (Z.of_nat (List.length calls) + 1)
        with (Z.of_nat (List.length ((now, t) :: calls)));
        [exact Hex | cbn [List.length]; lia]. }
    specialize (IH srv1 Hnd1 Hex1).
    destruct (create_each calls srv1) as [ps srv2]; simpl in *.
    destruct IH as (K1 & K2 & K3 & K4).
    repeat split; [exact K1 | | |].
    + intros x Hx. apply K2. apply in_or_app. now left.
    + constructor; [| exact K3].
      exists (mkTask v t "todo" now). simpl. repeat split.
      apply K2. apply in_or_app. right. now left.
    + rewrite K4, length_app. simpl. lia.
Qed.

Lemma room_after_insert (n : Z) (d : Database) (v : Z) (r : Task) :
  0 <= n -> room_for (n + 1) d -> new_rowid d = Some v -> id r = v ->
  room_for n {| tasks_table := tasks_table d ++ [r];
                sqlite_sequence := v |}.
Proof.
  intros Hn (H0 & Hseq & Hrows) Hv Hr.
  destruct (new_rowid_fresh _ _ Hv) as [_ Hlt].
  assert (Hvn : v + n <= MAX_ROWID).
  { destruct (new_rowid_at_most _ _ Hv) as [[x [Hx ->]] | [-> | ->]].
    - rewrite Forall_forall in Hrows. specialize (Hrows x Hx). lia.
    - lia.
    - lia. }
  unfold room_for; simpl. split; [lia |]. split; [exact Hvn |].
  apply Forall_app. split.
  - eapply Forall_impl; [| exact Hrows]. simpl. intros; lia.
  - constructor; [lia | constructor].
Qed.

Lemma Forall2_nth_error_r {A B : Type} (P : A -> B -> Prop)
    (xs : list A) (ys : list B) (k : nat) (y : B) :
  Forall2 P xs ys -> nth_error ys k = Some y -> exists x, P x y.
Proof.
  intros H. revert k. induction H as [| x y' xs ys Hxy _ IH];
    intros [| k] Hk; simpl in Hk; try discriminate.
  - inversion Hk; subst. eauto.
  - eauto.
Qed.

(** ** Rowids *)

Lemma StronglySorted_app_lt (l1 l2 : list Z) :
  StronglySorted Z.lt l1 -> StronglySorted Z.lt l2 ->
  (forall x y, In x l1 -> In y l2 -> x < y) ->
  StronglySorted Z.lt (l1 ++ l2).
Proof.
  intros H1 H2 H. induction H1 as [| x l1 Hs IH Hx]; simpl; [exact H2 |].
  constructor.
  - apply IH. intros a b Ha Hb. apply H; [now right | exact Hb].
  - apply Forall_app. split; [exact Hx |].
    apply Forall_forall. intros y Hy. apply H; [now left | exact Hy].
Qed.

Lemma StronglySorted_lt_NoDup (l : list Z) :
  StronglySorted Z.lt l -> NoDup l.
Proof.
  induction 1 as [| x l Hs IH Hx]; constructor; [| exact IH].
  intros Hin. rewrite Forall_forall in Hx. specialize (Hx x Hin). lia.
Qed.

Lemma ids_filter_sorted (p : Task -> bool) (rows : list Task) :
  StronglySorted Z.lt (ids rows) ->
  StronglySorted Z.lt (ids (filter p rows)).
Proof.
  induction rows as [| r rows IH]; simpl; intros H; [constructor |].
  inversion H as [| ? ? Hs Hr]; subst.
  destruct (p r); simpl; [| auto].
  constructor; [auto |].
  rewrite Forall_forall in Hr |- *. intros z Hz. apply Hr.
  unfold ids in *. apply in_map_iff in Hz. destruct Hz as [x [<- Hx]].
  apply in_map. apply filter_In in Hx. tauto.
Qed.

Lemma ids_set_status (i : ID) (s : string) (rows : list Task) :
  ids (map (set_status i s) rows) = ids rows.
Proof.
  unfold ids. rewrite map_map. apply map_ext. intros r.
  apply set_status_changed_only.
Qed.

Lemma rowids_in_order_insert (d : Database) (v : Z) (r : Task) :
  rowids_in_order d -> new_rowid d = Some v -> id r = v ->
  rowids_in_order {| tasks_table := tasks_table d ++ [r];
                     sqlite_sequence := v |}.
Proof.
  intros [Hs Hb] Hv Hr. destruct (new_rowid_fresh _ _ Hv) as [Hf _].
  split; simpl.
  - rewrite ids_snoc. apply StronglySorted_app_lt; [exact Hs | |].
    + repeat constructor.
    + intros x y Hx [<- | []]. unfold ids in Hx.
      apply in_map_iff in Hx. destruct Hx as [a [<- Ha]].
      rewrite Forall_forall in Hf. specialize (Hf a Ha). lia.
  - apply Forall_app. split.
    + eapply Forall_impl; [| exact Hf]. simpl. intros; lia.
    + repeat constructor. lia.
Qed.

Lemma rowids_in_order_execute (now : Z) (req : Request) (srv : Server) :
  rowids_in_order (db srv) ->
  rowids_in_order (db (snd (execute now req srv))) /\
  sqlite_sequence (db srv) <= sqlite_sequence (db (snd (execute now req srv))).
Proof.
  intros Hinv. destruct req as [| t | i s | i]; simpl.
  - split; [exact Hinv | lia].
  - destruct (createTask_cases now t srv) as [Hc | [v [Hv Hc]]]; rewrite Hc;
      simpl.
    + split; [exact Hinv | lia].
    + split; [now apply rowids_in_order_insert |].
      destruct (new_rowid_fresh _ _ Hv). lia.
  - destruct Hinv as [Hs Hb]. split; [| lia]. split; simpl.
    + now rewrite ids_set_status.
    + apply Forall_forall. intros x Hx. apply in_map_iff in Hx.
      destruct Hx as [y [<- Hy]]. rewrite Forall_forall in Hb.
      specialize (Hb y Hy).
      replace (id (set_status i s y)) with (id y); [exact Hb |].
      symmetry. apply set_status_changed_only.
  - destruct Hinv as [Hs Hb]. split; [| lia]. split; simpl.
    + now apply ids_filter_sorted.
    + apply Forall_forall. intros x Hx. apply filter_In in Hx.
      rewrite Forall_forall in Hb. apply Hb. tauto.
Qed.

Lemma rowids_in_order_boot (t1 t2 t3 : Z) :
  rowids_in_order (db (boot t1 t2 t3)).
Proof.
  split; simpl.
  - repeat constructor; lia.
  - repeat constructor; simpl; lia.
Qed.

Lemma rowids_in_order_serve (reqs : list (Z * Request)) :
  forall srv,
    rowids_in_order (db srv) ->
    rowids_in_order (db (snd (serve reqs srv))).
Proof.
  induction reqs as [| [now req] reqs IH]; intros srv Hinv; simpl;
    [exact Hinv |].
  pose proof (rowids_in_order_execute now req srv Hinv) as [H1 _].
  destruct (execute now req srv) as [r srv1]; simpl in *.
  specialize (IH srv1 H1).
  now destruct (serve reqs srv1) as [rs srv2].
Qed.

Lemma reachable_rowids_in_order (srv : Server) :
  reachable srv -> rowids_in_order (db srv).
Proof.
  intros (t1 & t2 & t3 & reqs & ->).
  apply rowids_in_order_serve, rowids_in_order_boot.
Qed.

Lemma exact_after_execute (n : Z) (now : Z) (req : Request) (srv : Server) :
  0 <= n -> exact_for (n + 1) (db srv) ->
  exact_for n (db (snd (execute now req srv))).
Proof.
  intros Hn Hex.
  assert (Hless : exact_for n (db srv))
    by (apply (exact_for_less n (n + 1)); [lia | exact Hex]).
  destruct req as [| t | i s | i]; simpl.
  - exact Hless.
  - destruct (createTask_cases now t srv) as [Hc | [v [Hv Hc]]]; rewrite Hc;
      simpl; [exact Hless |].
    now apply exact_after_insert.
  - destruct Hless as (H0 & Hs & Hr). split; [exact H0 |].
    split; [exact Hs |]. simpl. apply Forall_forall. intros x Hx.
    apply in_map_iff in Hx. destruct Hx as [y [<- Hy]].
    rewrite Forall_forall in Hr. specialize (Hr y Hy).
    replace (id (set_status i s y)) with (id y); [exact Hr |].
    symmetry. apply set_status_changed_only.
  - destruct Hless as (H0 & Hs & Hr). split; [exact H0 |].
    split; [exact Hs |]. simpl. apply Forall_forall. intros x Hx.
    apply filter_In in Hx. rewrite Forall_forall in Hr. apply Hr. tauto.
Qed.

(** While the rowids stay exact as numbers, the rows createTask returns
    while requests are served carry rowids above the counter, each above
    the one before. *)
Lemma created_rows_increasing (reqs : list (Z * Request)) :
  forall srv,
    rowids_in_order (db srv) ->
    exact_for (Z.of_nat (List.length reqs)) (db srv) ->
    StronglySorted Z.lt (ids (created_rows reqs srv)) /\
    Forall (fun r => sqlite_sequence (db srv) < id r) (created_rows reqs srv).
Proof.
  induction reqs as [| [now req] reqs IH]; intros srv Hinv Hex.
  - simpl. split; constructor.
  - pose proof (rowids_in_order_execute now req srv Hinv) as [Hinv1 Hseq].
    assert (Hex' : exact_for (Z.of_nat (List.length reqs) + 1) (db srv)).
    { replace (Z.of_nat (List.length reqs) + 1)
        with (Z.of_nat (List.length ((now, req) :: reqs)));
        [exact Hex | cbn [List.length]; lia]. }
    pose proof (exact_after_execute _ now req srv
                  (Nat2Z.is_nonneg _) Hex') as Hex1.
    assert (H1 : exact_for 1 (db srv)).
    { apply (exact_for_less 1 (Z.of_nat (List.length reqs) + 1));
        [lia | exact Hex']. }
    cbn [created_rows].
    destruct req as [| t | i s | i].
    + destruct (IH _ Hinv1 Hex1) as [Ha Hb]. split; assumption.
    + clear Hseq. cbn [execute] in Hinv1, Hex1 |- *.
      destruct (exact_new_rowid _ H1) as [v [Hv Hvb]].
      rewrite (createTask_inserted now t srv v Hv) in * by lia.
      destruct (IH _ Hinv1 Hex1) as [Ha Hb].
      cbn [snd db sqlite_sequence] in Hb.
      destruct (new_rowid_fresh _ _ Hv) as [_ Hlt].
      split.
      * constructor; [exact Ha |].
        apply Forall_forall. intros z Hz. unfold ids in Hz.
        apply in_map_iff in Hz. destruct Hz as [x [<- Hx]].
        rewrite Forall_forall in Hb. exact (Hb x Hx).
      * constructor; [exact Hlt |].
        eapply Forall_impl; [| exact Hb]. simpl. intros; lia.
    + destruct (IH _ Hinv1 Hex1) as [Ha Hb]. split; assumption.
    + destruct (IH _ Hinv1 Hex1) as [Ha Hb]. split; assumption.
Qed.

Lemma execute_new_ids_above_counter (now : Z) (req : Request) (srv : Server) :
  Forall
    (fun r' => In (id r') (ids (tasks_table (db srv))) \/
               sqlite_sequence (db srv) < id r')
    (tasks_table (db (snd (execute now req srv)))).
Proof.
  apply Forall_forall. intros r Hr.
  destruct req as [| t | i s | i]; simpl in Hr.
  - left. now apply in_map.
  - destruct (createTask_cases now t srv) as [Hc | [v [Hv Hc]]];
      rewrite Hc in Hr; simpl in Hr.
    + left. now apply in_map.
    + apply in_app_or in Hr. destruct Hr as [Hr | [<- | []]].
      * left. now apply in_map.
      * right. simpl. apply (new_rowid_fresh _ _ Hv).
  - apply in_map_iff in Hr. destruct Hr as [y [<- Hy]]. left.
    replace (id (set_status i s y)) with (id y); [now apply in_map |].
    symmetry. apply set_status_changed_only.
  - apply filter_In in Hr. left. apply in_map. tauto.
Qed.

(** Whatever requests are served, a row of the table afterwards either has
    the id of a row that was there or an id above what the counter was. *)
Lemma serve_new_ids_above_counter (reqs : list (Z * Request)) :
  forall srv,
    rowids_in_order (db srv) ->
    Forall
      (fun r' => In (id r') (ids (tasks_table (db srv))) \/
                 sqlite_sequence (db srv) < id r')
      (tasks_table (db (snd (serve reqs srv)))).
Proof.
  induction reqs as [| [now req] reqs IH]; intros srv Hinv.
  - simpl. apply Forall_forall. intros r Hr. left. now apply in_map.
  - cbn [serve].
    pose proof (rowids_in_order_execute now req srv Hinv) as [Hinv1 Hseq].
    pose proof (execute_new_ids_above_counter now req srv) as Hstep.
    destruct (execute now req srv) as [r srv1]; cbn [fst snd] in *.
    specialize (IH srv1 Hinv1).
    destruct (serve reqs srv1) as [rs srv2]; cbn [fst snd] in *.
    rewrite Forall_forall in IH, Hstep |- *. intros x Hx.
    destruct (IH x Hx) as [Hin | Hgt]; [| right; lia].
    unfold ids in Hin. apply in_map_iff in Hin.
    destruct Hin as [y [Hy Hiny]]. rewrite <- Hy.
    exact (Hstep y Hiny).
Qed.

Lemma execute_keeps_ids (now : Z) (req : Request) (srv : Server) :
  keeps_ids req (tasks_table (db srv))
    (tasks_table (db (snd (execute now req srv)))).
Proof.
  destruct req as [| t | i s | i]; simpl.
  - reflexivity.
  - destruct (createTask_cases now t srv) as [Hc | [v [Hv Hc]]]; rewrite Hc;
      simpl; eauto.
  - induction (tasks_table (db srv)) as [| r rows IH]; simpl;
      constructor; [apply set_status_changed_only | exact IH].
  - eauto.
Qed.

(** ** The client's addTask *)

Module ClientFacts.
Import Client.

Lemma trimStart_spec (s : string) :
  exists pre,
    s = (pre ++ trimStart s)%string /\ all_white_space pre = true /\
    (forall c, first_char (trimStart s) = Some c ->
               is_white_space c = false).
Proof.
  induction s as [| c s IH]; simpl.
  - exists EmptyString. repeat split. discriminate.
  - destruct (is_white_space c) eqn:E.
    + destruct IH as [pre (H1 & H2 & H3)].
      exists (String c pre). simpl. rewrite E, H2. split; [| auto].
      now rewrite <- H1.
    + exists EmptyString. simpl. repeat split.
      intros c' [= <-]. exact E.
Qed.

Lemma trimEnd_spec (s : string) :
  exists post,
    s = (trimEnd s ++ post)%string /\ all_white_space post = true /\
    (forall c, last_char (trimEnd s) = Some c -> is_white_space c = false) /\
    (forall c, first_char s = Some c -> is_white_space c = false ->
               first_char (trimEnd s) = Some c).
Proof.
  induction s as [| c s IH]; simpl.
  - exists EmptyString. repeat split; discriminate.
  - destruct IH as [post (H1 & H2 & H3 & _)].
    destruct (trimEnd s) as [| d kept] eqn:E.
    + simpl in H1. subst post.
      destruct (is_white_space c) eqn:Ec.
      * exists (String c s). simpl. rewrite Ec, H2.
        repeat split; try discriminate. intros c' [= <-]. congruence.
      * exists s. simpl. repeat split; auto.
        intros c' [= <-]. exact Ec.
    + exists post. simpl. split; [now rewrite H1 at 1 |].
      split; [exact H2 |]. split; [| auto].
      intros c' Hc'. apply H3. simpl.
      destruct kept; exact Hc'.
Qed.

Lemma trim_spec (s : string) :
  exists pre post,
    s = (pre ++ trim s ++ post)%string /\
    all_white_space pre = true /\ all_white_space post = true /\
    bare (trim s).
Proof.
  destruct (trimStart_spec s) as [pre (H1 & H2 & H3)].
  destruct (trimEnd_spec (trimStart s)) as [post (K1 & K2 & K3 & K4)].
  exists pre, post. unfold trim. split; [| split; [exact H2 |]].
  - now rewrite <- K1.
  - split; [exact K2 |]. split; [| exact K3].
    intros c Hc. destruct (trimStart s) as [| d rest] eqn:E.
    + simpl in Hc. discriminate.
    + assert (Hd : is_white_space d = false) by (apply H3; reflexivity).
      rewrite (K4 d eq_refl Hd) in Hc. now inversion Hc; subst.
Qed.

Lemma falsy_iff (s : string) : falsy s = true <-> s = "".
Proof. destruct s; simpl; split; congruence. Qed.

End ClientFacts.

(** ** How far the counter can get *)

Lemma new_rowid_next (d : Database) (v : Z) :
  rowids_in_order d -> 0 <= sqlite_sequence d ->
  new_rowid d = Some v -> v = sqlite_sequence d + 1.
Proof.
  intros [_ Hb] H0 Hv.
  destruct (new_rowid_fresh _ _ Hv) as [_ Hlt].
  destruct (new_rowid_at_most _ _ Hv) as [[r [Hr ->]] | [-> | ->]].
  - rewrite Forall_forall in Hb. specialize (Hb r Hr). lia.
  - reflexivity.
  - lia.
Qed.

Lemma counter_after_execute (now : Z) (req : Request) (srv : Server) :
  rowids_in_order (db srv) -> 0 <= sqlite_sequence (db srv) ->
  sqlite_sequence (db (snd (execute now req srv))) <=
  sqlite_sequence (db srv) + 1.
Proof.
  intros Hinv H0. destruct req as [| t | i s | i]; simpl; try lia.
  destruct (createTask_cases now t srv) as [Hc | [v [Hv Hc]]]; rewrite Hc;
    simpl; [lia |].
  rewrite (new_rowid_next _ _ Hinv H0 Hv). lia.
Qed.

Lemma counter_after_serve (reqs : list (Z * Request)) :
  forall srv,
    rowids_in_order (db srv) -> 0 <= sqlite_sequence (db srv) ->
    0 <= sqlite_sequence (db (snd (serve reqs srv))) <=
    sqlite_sequence (db srv) + Z.of_nat (List.length reqs).
Proof.
  induction reqs as [| [now req] reqs IH]; intros srv Hinv H0.
  - simpl. lia.
  - cbn [serve List.length].
    pose proof (rowids_in_order_execute now req srv Hinv) as [H1 H2].
    pose proof (counter_after_execute now req srv Hinv H0) as H3.
    destruct (execute now req srv) as [r srv1]; simpl in H1, H2, H3.
    assert (H01 : 0 <= sqlite_sequence (db srv1)) by lia.
    specialize (IH srv1 H1 H01).
    destruct (serve reqs srv1) as [rs srv2]; simpl in *. lia.
Qed.

(** A server that has answered [reqs] since it booted has used at most
    three rowids more than that: createTask cannot be rejected before some
    2^63 requests. *)
Lemma room_after_requests (t1 t2 t3 : Z) (reqs : list (Z * Request)) (n : Z) :
  0 <= n -> 3 + Z.of_nat (List.length reqs) + n <= MAX_ROWID ->
  room_for n (db (snd (serve reqs (boot t1 t2 t3)))).
Proof.
  intros Hn Hle.
  pose proof (rowids_in_order_boot t1 t2 t3) as Hb.
  assert (H0 : 0 <= sqlite_sequence (db (boot t1 t2 t3))) by (simpl; lia).
  pose proof (counter_after_serve reqs _ Hb H0) as Hc.
  pose proof (rowids_in_order_serve reqs _ Hb) as [_ Hbound].
  change (sqlite_sequence (db (boot t1 t2 t3))) with 3 in Hc.
  unfold room_for. split; [lia |]. split; [lia |].
  eapply Forall_impl; [| exact Hbound]. simpl. intros; lia.
Qed.


(** * The specification's statements *)

(** ** Listing after creations *)

(** C1, as the code has it: after any run of N createTask calls from a
    store with distinct rowids, the next N of which are at most 2^53 (so
    that this.lastID is exact), tasks resolves with all rows of the table,
    newest created_at first, N more than before; every call has its row in
    the list, with the title given and the clock reading of the call; and
    of two rows created in the run, the one created later is listed first
    whenever its created_at is strictly later. *)
Theorem tasks_after_creates (calls : list (Z * string)) (srv : Server) :
  NoDup (ids (tasks_table (db srv))) ->
  exact_for (Z.of_nat (List.length calls)) (db srv) ->
  let results := fst (create_each calls srv) in
  let srv' := snd (create_each calls srv) in
  exists rows,
    Query.tasks srv' = Resolved rows /\
    Permutation rows (tasks_table (db srv')) /\
    created_at_desc rows /\
    Forall2
      (fun call p =>
         exists row,
           p = Resolved (Some row) /\ title row = snd call /\
           status row = "todo" /\ created_at row = fst call /\
           In row rows)
      calls results /\
    (forall m n a b,
       (m < n)%nat ->
       nth_error results m = Some (Resolved (Some a)) ->
       nth_error results n = Some (Resolved (Some b)) ->
       created_at a < created_at b ->
       listed_before b a rows = true) /\
    List.length rows =
    (List.length (tasks_table (db srv)) + List.length calls)%nat.
Proof.
  intros Hnd Hex results srv'.
  destruct (create_each_spec calls srv Hnd Hex) as (Hnd' & _ & Hres & Hlen).
  fold results srv' in Hnd', Hres, Hlen.
  set (rows := sql_select_all (db srv')).
  assert (Hperm : Permutation rows (tasks_table (db srv')))
    by apply order_by_perm.
  assert (Hin : forall r, In r (tasks_table (db srv')) -> In r rows).
  { intros r Hr. eapply Permutation_in; [symmetry; exact Hperm | exact Hr]. }
  assert (Hsorted : created_at_desc rows) by apply order_by_sorted.
  assert (Hres' :
    Forall2
      (fun call p =>
         exists row,
           p = Resolved (Some row) /\ title row = snd call /\
           status row = "todo" /\ created_at row = fst call /\
           In row rows) calls results).
  { eapply Forall2_impl; [| exact Hres]. simpl.
    intros call p [row (H1 & H2 & H3 & H4 & H5)].
    exists row. auto 6. }
  assert (Hlisted : forall k r,
             nth_error results k = Some (Resolved (Some r)) -> In r rows).
  { intros k r Hk.
    destruct (Forall2_nth_error_r _ _ _ _ _ Hres' Hk)
      as [call [row (Hp & _ & _ & _ & Hrow)]].
    now inversion Hp; subst. }
  exists rows. split; [reflexivity |]. split; [exact Hperm |].
  split; [exact Hsorted |]. split; [exact Hres' |]. split.
  - intros m n a b _ Ha Hb Hlt.
    apply newer_listed_before; eauto.
    eapply Permutation_NoDup; [| exact Hnd'].
    unfold ids. apply Permutation_map. symmetry. exact Hperm.
  - rewrite (Permutation_length Hperm). exact Hlen.
Qed.

Lemma tasks_after_creates_witness :
  NoDup (ids (tasks_table (db (boot 1 2 3)))) /\
  exact_for (Z.of_nat (List.length [(7, "A"); (8, "B")]))
    (db (boot 1 2 3)) /\
  exists rows,
    Query.tasks (snd (create_each [(7, "A"); (8, "B")] (boot 1 2 3))) =
    Resolved rows /\
    (forall a b,
       nth_error (fst (create_each [(7, "A"); (8, "B")] (boot 1 2 3))) 0 =
       Some (Resolved (Some a)) ->
       nth_error (fst (create_each [(7, "A"); (8, "B")] (boot 1 2 3))) 1 =
       Some (Resolved (Some b)) ->
       created_at a < created_at b ->
       listed_before b a rows = true).
Proof.
  assert (H : NoDup (ids (tasks_table (db (boot 1 2 3))))).
  { simpl. repeat constructor; simpl; intuition lia. }
  assert (Hex : exact_for (Z.of_nat (List.length [(7, "A"); (8, "B")]))
                  (db (boot 1 2 3))) by exact_tac.
  split; [exact H |]. split; [exact Hex |].
  destruct (tasks_after_creates [(7, "A"); (8, "B")] (boot 1 2 3) H Hex)
    as [rows (Hq & _ & _ & _ & Hbefore & _)].
  exists rows. split; [exact Hq |].
  intros a b. apply Hbefore. constructor.
Defined.

(** The scenario of the specification with the two calls one second apart:
    B is listed before A. *)
Example create_A_then_B_later_second :
  exists a b rest,
    fst (create_each [(7, "A"); (8, "B")] (boot 1 2 3)) =
    [Resolved (Some a); Resolved (Some b)] /\
    title a = "A" /\ title b = "B" /\
    Query.tasks (snd (create_each [(7, "A"); (8, "B")] (boot 1 2 3))) =
    Resolved (b :: a :: rest).
Proof. repeat eexists. Qed.

(** C1 as stated fails: two createTask calls answered within the same
    clock second store equal created_at values, and tasks then lists A, the
    row created first, before B. *)
Lemma create_A_then_B_same_second :
  let a := mkTask 4 "A" "todo" 7 in
  let b := mkTask 5 "B" "todo" 7 in
  fst (create_each [(7, "A"); (7, "B")] (boot 1 2 3)) =
  [Resolved (Some a); Resolved (Some b)] /\
  Query.tasks (snd (create_each [(7, "A"); (7, "B")] (boot 1 2 3))) =
  Resolved [a; b;
            mkTask 3 "Deploy to production" "done" 3;
            mkTask 2 "Review pull requests" "in_progress" 2;
            mkTask 1 "Design new landing page" "todo" 1] /\
  listed_before b a (sql_select_all
                       (db (snd (create_each [(7, "A"); (7, "B")]
                                   (boot 1 2 3))))) = false.
Proof. repeat split. Qed.

(** ** createTask *)

(** C2: for every title, createTask inserts exactly one new row, with that
    title and status 'todo', and resolves with that row as re-fetched by its
    generated id.  (The premise asks that the new rowid is at most 2^53, so
    that this.lastID, a JavaScript number, is the rowid itself.) *)
Theorem createTask_inserts_todo_row (now : Z) (t : string) (srv : Server) :
  exact_for 1 (db srv) ->
  exists row srv',
    Mutation.createTask now t srv = (Resolved (Some row), srv') /\
    title row = t /\ status row = "todo" /\
    tasks_table (db srv') = tasks_table (db srv) ++ [row] /\
    ~ In (id row) (ids (tasks_table (db srv))) /\
    sql_select_by_id (IdInt (id row)) (db srv') = Some row.
Proof.
  intros Hex. destruct (exact_new_rowid _ Hex) as [v [Hv Hb]].
  assert (Hvb : - MAX_EXACT <= v <= MAX_EXACT) by lia.
  pose proof (createTask_inserted now t srv v Hv Hvb) as Hc. simpl in Hc.
  destruct (new_rowid_fresh _ _ Hv) as [Hfresh _].
  eexists. eexists. split; [exact Hc |]. simpl.
  repeat split.
  - intros Hin. unfold ids in Hin. apply in_map_iff in Hin.
    destruct Hin as [r [Hr Hin]]. rewrite Forall_forall in Hfresh.
    specialize (Hfresh r Hin). lia.
  - unfold sql_select_by_id; simpl. now apply find_fresh_last.
Qed.

Lemma createTask_inserts_todo_row_witness :
  exact_for 1 (db (boot 1 2 3)) /\
  exists row srv',
    Mutation.createTask 4 "" (boot 1 2 3) = (Resolved (Some row), srv') /\
    title row = "" /\ status row = "todo" /\
    tasks_table (db srv') = tasks_table (db (boot 1 2 3)) ++ [row] /\
    ~ In (id row) (ids (tasks_table (db (boot 1 2 3)))) /\
    sql_select_by_id (IdInt (id row)) (db srv') = Some row.
Proof.
  assert (H : exact_for 1 (db (boot 1 2 3))) by exact_tac.
  split; [exact H |].
  exact (createTask_inserts_todo_row 4 "" (boot 1 2 3) H).
Defined.

(** Past 2^53 this.lastID is no longer the rowid.  With the counter at
    2^53 the new row gets 2^53 + 1, the number nearest to it is 2^53, and
    the call resolves with the row before; two rows further the nearest
    number is 2^53 + 4, which no row has, and the call resolves with
    undefined.  The row is inserted in both cases. *)
Example createTask_past_2_53 :
  let old := mkTask 9007199254740992 "old" "done" 1 in
  let srv := {| db := {| tasks_table := [old];
                         sqlite_sequence := 9007199254740992 |};
                pubsub := [] |} in
  let later := mkTask 9007199254740994 "later" "done" 2 in
  let srv2 := {| db := {| tasks_table := [old; later];
                          sqlite_sequence := 9007199254740994 |};
                 pubsub := [] |} in
  room_for 1 (db srv) /\
  fst (Mutation.createTask 7 "new" srv) = Resolved (Some old) /\
  tasks_table (db (snd (Mutation.createTask 7 "new" srv))) =
  [old; mkTask 9007199254740993 "new" "todo" 7] /\
  fst (Mutation.createTask 7 "new" srv2) = Resolved None /\
  tasks_table (db (snd (Mutation.createTask 7 "new" srv2))) =
  [old; later; mkTask 9007199254740995 "new" "todo" 7].
Proof.
  cbv zeta. split; [room_tac |]. repeat split.
Qed.

(** ** updateTaskStatus on an absent id *)

(** C3: updateTaskStatus on an id that no row has resolves with no row
    (undefined) instead of rejecting, and leaves the database as it was. *)
Theorem updateTaskStatus_absent_id (i : ID) (s : string) (srv : Server) :
  ~ present i (db srv) ->
  exists srv',
    Mutation.updateTaskStatus i s srv = (Resolved None, srv') /\
    db srv' = db srv.
Proof.
  intros H. apply not_present_no_match in H.
  unfold Mutation.updateTaskStatus, sql_select_by_id, sql_update_status.
  simpl. rewrite (map_set_status_no_match _ _ _ H), (find_no_match _ _ H).
  eexists. split; [reflexivity |]. simpl. now destruct (db srv).
Qed.

Lemma updateTaskStatus_absent_id_witness :
  ~ present (IdInt 9) (db (boot 1 2 3)) /\
  exists srv',
    Mutation.updateTaskStatus (IdInt 9) "done" (boot 1 2 3) =
    (Resolved None, srv') /\
    db srv' = db (boot 1 2 3).
Proof.
  assert (H : ~ present (IdInt 9) (db (boot 1 2 3))).
  { intros [r [Hin Hr]]. simpl in Hin, Hr.
    destruct Hin as [<- | [<- | [<- | []]]]; discriminate. }
  split; [exact H |].
  exact (updateTaskStatus_absent_id (IdInt 9) "done" (boot 1 2 3) H).
Defined.

(** ** deleteTask always reports success *)

(** C4: deleteTask resolves with true for every id, present or not; called
    a second time with the same id it resolves with true again and does not
    change the database. *)
Theorem deleteTask_reports_success (i : ID) (srv : Server) :
  fst (Mutation.deleteTask i srv) = Resolved true /\
  (let srv1 := snd (Mutation.deleteTask i srv) in
   fst (Mutation.deleteTask i srv1) = Resolved true /\
   db (snd (Mutation.deleteTask i srv1)) = db srv1).
Proof.
  split; [reflexivity |]. simpl. split; [reflexivity |].
  unfold sql_delete; simpl. f_equal.
  induction (tasks_table (db srv)) as [| r rows IH]; simpl; [reflexivity |].
  destruct (id_matches i r) eqn:E; simpl; [exact IH |].
  rewrite E. simpl. now rewrite IH.
Qed.

(** ** updateTaskStatus touches the status only *)



(** ** deleteTask removes that row only *)


(** ** Publications *)

(** C7, as the code has it: a mutation that is not rejected appends exactly
    one event to the channel TASK_UPDATED, and the event carries what the
    mutation resolves with: for createTask the row re-fetched by
    this.lastID, which is the inserted row while the new rowid is at most
    2^53; for updateTaskStatus the re-fetched row (a row of the table when
    the id is present, no row when it is absent); for deleteTask the id
    with deleted = true.  updateTaskStatus and deleteTask are never
    rejected; createTask is not rejected while rowids are left, and
    publishes nothing when it is. *)
Theorem mutations_publish_once (srv : Server) :
  (forall now t,
     match Mutation.createTask now t srv with
     | (Resolved row, srv') =>
         pubsub srv' =
         pubsub srv ++ [mkEvent "TASK_UPDATED" (TaskUpdated row)] /\
         (exact_for 1 (db srv) ->
          exists r, row = Some r /\ In r (tasks_table (db srv')) /\
                    title r = t /\ status r = "todo" /\
                    created_at r = now /\
                    ~ In (id r) (ids (tasks_table (db srv))))
     | (Rejected _, srv') => srv' = srv /\ ~ room_for 1 (db srv)
     end) /\
  (forall i s,
     match Mutation.updateTaskStatus i s srv with
     | (Resolved row, srv') =>
         pubsub srv' =
         pubsub srv ++ [mkEvent "TASK_UPDATED" (TaskUpdated row)] /\
         (present i (db srv) ->
          exists r, row = Some r /\ In r (tasks_table (db srv'))) /\
         (~ present i (db srv) -> row = None)
     | (Rejected _, _) => False
     end) /\
  (forall i,
     match Mutation.deleteTask i srv with
     | (Resolved ok, srv') =>
         ok = true /\
         pubsub srv' =
         pubsub srv ++ [mkEvent "TASK_UPDATED" (TaskDeleted i true)]
     | (Rejected _, _) => False
     end).
Proof.
  split; [| split].
  - intros now t.
    destruct (createTask_cases now t srv) as [Hc | [v [Hv Hc]]]; rewrite Hc.
    + split; [reflexivity |]. intros Hroom.
      destruct (room_new_rowid _ Hroom) as [v Hv].
      rewrite (createTask_outcome now t srv v Hv) in Hc. discriminate.
    + split; [reflexivity |]. intros Hex.
      destruct (exact_new_rowid _ Hex) as [w [Hw Hb]].
      assert (w = v) by congruence. subst w.
      rewrite (double_of_int64_exact v) by lia.
      destruct (new_rowid_fresh _ _ Hv) as [Hfresh _].
      rewrite (find_fresh_last v _ (mkTask v t "todo" now) Hfresh eq_refl).
      eexists. split; [reflexivity |]. simpl. repeat split.
      * apply in_or_app. right. now left.
      * now apply fresh_not_in.
  - intros i s. unfold Mutation.updateTaskStatus. simpl.
    split; [reflexivity |]. split.
    + intros [r [Hin Hr]].
      destruct (find_after_update i s _ r Hin Hr) as [r' [Hf _]].
      unfold sql_select_by_id; simpl. rewrite Hf.
      exists r'. split; [reflexivity |].
      apply find_some in Hf. exact (proj1 Hf).
    + intros Habs. apply not_present_no_match in Habs.
      unfold sql_select_by_id; simpl.
      rewrite (map_set_status_no_match _ _ _ Habs).
      now apply find_no_match.
  - intros i. simpl. split; reflexivity.
Qed.

(** C7 as stated fails for updateTaskStatus on an id no row has: the one
    event it publishes carries no task row. *)
Lemma updateTaskStatus_absent_publishes_no_row :
  ~ present (IdInt 9) (db (boot 1 2 3)) /\
  pubsub (boot 1 2 3) = [] /\
  pubsub (snd (Mutation.updateTaskStatus (IdInt 9) "done" (boot 1 2 3))) =
  [mkEvent "TASK_UPDATED" (TaskUpdated None)].
Proof.
  split; [| split; reflexivity].
  intros [r [Hin Hr]]. simpl in Hin, Hr.
  destruct Hin as [<- | [<- | [<- | []]]]; discriminate.
Qed.

(** ** Any text is a status *)



(** ** Rowids *)

(** C9: in every state the server can reach the rowids of the table are
    pairwise distinct; whatever request comes next the rows that were there
    keep their ids (see [keeps_ids]); whatever requests come next the table,
    which is in insertion order, carries strictly increasing ids, and a row
    that was not there before has an id above the counter and above every
    row that was; and, while the rowids are at most 2^53, the rows of the
    table followed by the rows createTask returns from then on carry
    strictly increasing ids. *)
Theorem rowids_unique_immutable_increasing (srv : Server) :
  reachable srv ->
  NoDup (ids (tasks_table (db srv))) /\
  (forall now req,
     keeps_ids req (tasks_table (db srv))
       (tasks_table (db (snd (execute now req srv))))) /\
  (forall reqs,
     StronglySorted Z.lt (ids (tasks_table (db (snd (serve reqs srv))))) /\
     Forall
       (fun r' =>
          In (id r') (ids (tasks_table (db srv))) \/
          (sqlite_sequence (db srv) < id r' /\
           Forall (fun r => id r < id r') (tasks_table (db srv))))
       (tasks_table (db (snd (serve reqs srv))))) /\
  (forall reqs,
     exact_for (Z.of_nat (List.length reqs)) (db srv) ->
     StronglySorted Z.lt
       (ids (tasks_table (db srv)) ++ ids (created_rows reqs srv))).
Proof.
  intros Hreach. pose proof (reachable_rowids_in_order srv Hreach) as Hinv.
  split; [| split; [| split]].
  - apply StronglySorted_lt_NoDup. apply Hinv.
  - intros now req. apply execute_keeps_ids.
  - intros reqs. split.
    + apply (rowids_in_order_serve reqs srv Hinv).
    + pose proof (serve_new_ids_above_counter reqs srv Hinv) as Hnew.
      destruct Hinv as [_ Hbound].
      eapply Forall_impl; [| exact Hnew]. simpl.
      intros r' [Hin | Hgt]; [now left | right].
      split; [exact Hgt |].
      eapply Forall_impl; [| exact Hbound]. simpl. intros; lia.
  - intros reqs Hex.
    destruct (created_rows_increasing reqs srv Hinv Hex) as [Ha Hb].
    destruct Hinv as [Hs Hbound].
    apply StronglySorted_app_lt; [exact Hs | exact Ha |].
    intros x y Hx Hy. unfold ids in Hx, Hy.
    apply in_map_iff in Hx. destruct Hx as [a [<- Hina]].
    apply in_map_iff in Hy. destruct Hy as [b [<- Hinb]].
    rewrite Forall_forall in Hbound, Hb.
    specialize (Hbound a Hina). specialize (Hb b Hinb). lia.
Qed.

Lemma rowids_unique_immutable_increasing_witness :
  reachable (snd (serve [(4, ReqCreateTask "A"); (5, ReqDeleteTask (IdInt 2))]
                    (boot 1 2 3))) /\
  NoDup (ids (tasks_table
                (db (snd (serve [(4, ReqCreateTask "A");
                                 (5, ReqDeleteTask (IdInt 2))]
                           (boot 1 2 3)))))) /\
  StronglySorted Z.lt
    (ids (tasks_table
            (db (snd (serve [(4, ReqCreateTask "A");
                             (5, ReqDeleteTask (IdInt 2))]
                       (boot 1 2 3))))) ++
     ids (created_rows [(6, ReqCreateTask "B"); (6, ReqCreateTask "C")]
            (snd (serve [(4, ReqCreateTask "A"); (5, ReqDeleteTask (IdInt 2))]
                    (boot 1 2 3))))).
Proof.
  assert (H : reachable
                (snd (serve [(4, ReqCreateTask "A");
                             (5, ReqDeleteTask (IdInt 2))] (boot 1 2 3)))).
  { exists 1, 2, 3,
      [(4, ReqCreateTask "A"); (5, ReqDeleteTask (IdInt 2))].
    reflexivity. }
  split; [exact H |].
  destruct (rowids_unique_immutable_increasing _ H) as (H1 & _ & _ & H4).
  split; [exact H1 |]. apply H4. exact_tac.
Defined.

(** After the sample rows 1, 2, 3: A gets rowid 4 and is deleted; B then
    gets 5, not 4 again. *)
Example rowids_after_delete_are_not_reused :
  ids (tasks_table
         (db (snd (serve [(4, ReqCreateTask "A"); (5, ReqDeleteTask (IdInt 4));
                          (6, ReqCreateTask "B")] (boot 1 2 3))))) =
  [1; 2; 3; 5].
Proof. reflexivity. Qed.

(** ** The client never posts an empty title *)

(** C10: addTask works on the trimmed input (the input without its leading
    and trailing white space).  When that is empty nothing is posted, and
    page and server stay as they are; otherwise createTask is posted with
    the trimmed title, the input is cleared and the list reloaded.  So a
    createTask posted by addTask never has an empty title. *)
Theorem addTask_posts_trimmed_nonempty_title
    (now1 now2 : Z) (pg : Client.Page) (srv : Server) :
  let title := Client.trim (Client.taskInput pg) in
  (exists pre post,
     Client.taskInput pg = (pre ++ title ++ post)%string /\
     Client.all_white_space pre = true /\
     Client.all_white_space post = true /\
     Client.bare title) /\
  (title = "" -> Client.addTask now1 now2 pg srv = ([], pg, srv)) /\
  (title <> "" ->
   let srv1 := snd (Mutation.createTask now1 title srv) in
   Client.addTask now1 now2 pg srv =
   ([ReqCreateTask title; ReqTasks],
    {| Client.taskInput := "";
       Client.tasks := sql_select_all (db srv1);
       Client.columns := Client.renderTasks (sql_select_all (db srv1)) |},
    srv1)) /\
  (forall t,
     In (ReqCreateTask t) (fst (fst (Client.addTask now1 now2 pg srv))) ->
     t = title /\ t <> "").
Proof.
  intros title. split; [apply ClientFacts.trim_spec |].
  unfold Client.addTask. fold title.
  destruct (Client.falsy title) eqn:E.
  - apply ClientFacts.falsy_iff in E. split; [reflexivity |].
    split; [congruence |]. simpl. tauto.
  - assert (Hne : title <> "").
    { intros H. apply ClientFacts.falsy_iff in H. congruence. }
    split; [congruence |].
    unfold Client.graphqlRequest, Client.loadTasks, Client.graphqlRequest.
    cbn [execute].
    destruct (Mutation.createTask now1 title srv) as [p srv1]; simpl.
    split; [reflexivity |].
    intros t [H | [H | []]]; [| discriminate].
    inversion H; subst. split; [reflexivity | exact Hne].
Qed.

Example addTask_blank_input :
  Client.addTask 4 5 (Client.mkPage "  " [] []) (boot 1 2 3) =
  ([], Client.mkPage "  " [] [], boot 1 2 3).
Proof. reflexivity. Qed.

Example addTask_padded_input :
  fst (fst (Client.addTask 4 5 (Client.mkPage " buy milk  " [] [])
              (boot 1 2 3))) =
  [ReqCreateTask "buy milk"; ReqTasks].
Proof. reflexivity. Qed.

(** * Further properties of the code *)

(** ** The board: renderTasks and loadTasks *)

Lemma known_status_iff (s : string) :
  known_status s = true <-> s = "todo" \/ s = "in_progress" \/ s = "done".
Proof.
  unfold known_status. rewrite !orb_true_iff, !String.eqb_eq. tauto.
Qed.

Lemma shown_in_renderTasks (st : string) (t : Task) (ts : list Task) :
  shown_in st t (Client.renderTasks ts) <->
  In t ts /\ status t = st /\ known_status st = true.
Proof.
  unfold shown_in, Client.renderTasks. simpl. split.
  - intros [col [Hcol Ht]].
    destruct Hcol as [H | [H | [H | []]]]; inversion H; subst;
      apply filter_In in Ht; destruct Ht as [Ht E];
      apply String.eqb_eq in E; auto.
  - intros (Ht & Hst & Hk). apply known_status_iff in Hk.
    exists (filter (fun x => String.eqb (status x) st) ts). split.
    + destruct Hk as [-> | [-> | ->]]; auto.
    + apply filter_In. split; [exact Ht |]. now apply String.eqb_eq.
Qed.

Lemma shown_renderTasks (t : Task) (ts : list Task) :
  shown t (Client.renderTasks ts) <->
  In t ts /\ known_status (status t) = true.
Proof.
  unfold shown. split.
  - intros [st H]. apply shown_in_renderTasks in H.
    destruct H as (H1 & <- & H3). auto.
  - intros [H1 H2]. exists (status t). apply shown_in_renderTasks. auto.
Qed.

(** renderTasks fills the columns todo, in_progress and done, in that
    order; a task is in a column exactly when its status is that column's;
    so a task whose status is none of the three is in no column, and the
    cards on the board are as many as the tasks with one of the three
    statuses: none is shown twice. *)
Theorem renderTasks_columns (ts : list Task) :
  map fst (Client.renderTasks ts) = ["todo"; "in_progress"; "done"] /\
  (forall st t,
     shown_in st t (Client.renderTasks ts) <->
     In t ts /\ status t = st /\ known_status st = true) /\
  (forall t, known_status (status t) = false ->
             ~ shown t (Client.renderTasks ts)) /\
  List.length (List.concat (map snd (Client.renderTasks ts))) =
  List.length (filter (fun t => known_status (status t)) ts).
Proof.
  split; [reflexivity |]. split; [intros; apply shown_in_renderTasks |].
  split.
  - intros t Hk Hs. apply shown_renderTasks in Hs.
    destruct Hs as [_ Hs]. congruence.
  - unfold Client.renderTasks. simpl. rewrite app_nil_r, !length_app.
    induction ts as [| t ts IH]; [reflexivity |].
    unfold known_status in *. simpl.
    destruct (String.eqb_spec (status t) "todo") as [E1 | E1];
      destruct (String.eqb_spec (status t) "in_progress") as [E2 | E2];
      destruct (String.eqb_spec (status t) "done") as [E3 | E3];
      simpl; try (rewrite E1 in *; discriminate);
      try (rewrite E2 in *; discriminate); lia.
Qed.




(** ** The handlers behind the buttons *)









(** ** How the mutations compose *)

Lemma filter_fresh_last (v : Z) (rows : list Task) (row : Task) :
  Forall (fun r => id r < v) rows -> id row = v ->
  filter (fun r => negb (id_matches (IdInt v) r)) (rows ++ [row]) = rows.
Proof.
  intros H Hv. induction H as [| x rows Hx _ IH]; simpl.
  - unfold id_matches; simpl. now rewrite Hv, Z.eqb_refl.
  - unfold id_matches at 1; simpl.
    destruct (Z.eqb_spec (id x) v); [lia |]. simpl. now rewrite IH.
Qed.

(** createTask followed by deleteTask of the id it returned, while the new
    rowid is at most 2^53: the table and the list are again what they were,
    but the id is spent: the counter stays at it, and a row that a later
    createTask adds has a larger one. *)
Theorem createTask_then_deleteTask (now : Z) (t : string) (srv : Server) :
  exact_for 1 (db srv) ->
  exists row srv1,
    Mutation.createTask now t srv = (Resolved (Some row), srv1) /\
    let srv2 := snd (Mutation.deleteTask (IdInt (id row)) srv1) in
    tasks_table (db srv2) = tasks_table (db srv) /\
    Query.tasks srv2 = Query.tasks srv /\
    sqlite_sequence (db srv) < id row /\
    sqlite_sequence (db srv2) = id row /\
    forall now' t',
      Forall (fun r' => In r' (tasks_table (db srv)) \/ id row < id r')
        (tasks_table (db (snd (Mutation.createTask now' t' srv2)))).
Proof.
  intros Hex. destruct (exact_new_rowid _ Hex) as [v [Hv Hb]].
  assert (Hvb : - MAX_EXACT <= v <= MAX_EXACT) by lia.
  destruct (new_rowid_fresh _ _ Hv) as [Hfresh Hlt].
  eexists. eexists.
  split; [apply (createTask_inserted now t srv v Hv Hvb) |].
  cbn zeta.
  match goal with
  | |- context [Mutation.deleteTask ?i ?s] =>
      set (srv2 := snd (Mutation.deleteTask i s))
  end.
  assert (Ht : tasks_table (db srv2) = tasks_table (db srv)).
  { unfold srv2. simpl. now apply filter_fresh_last. }
  assert (Hs : sqlite_sequence (db srv2) = v) by reflexivity.
  simpl id. split; [exact Ht |]. split.
  - unfold Query.tasks, sql_select_all. now rewrite Ht.
  - split; [exact Hlt |]. split; [exact Hs |].
    intros now' t'. apply Forall_forall. intros r' Hr'.
    destruct (createTask_cases now' t' srv2) as [Hr | [w [Hw Hr]]];
      rewrite Hr in Hr'; simpl in Hr'.
    + left. now rewrite <- Ht.
    + apply in_app_or in Hr'. destruct Hr' as [Hin | [<- | []]].
      * left. now rewrite <- Ht.
      * right. simpl. destruct (new_rowid_fresh _ _ Hw) as [_ Hlt'].
        rewrite Hs in Hlt'. exact Hlt'.
Qed.

Lemma createTask_then_deleteTask_witness :
  exact_for 1 (db (boot 1 2 3)) /\
  exists row srv1,
    Mutation.createTask 4 "A" (boot 1 2 3) = (Resolved (Some row), srv1) /\
    tasks_table (db (snd (Mutation.deleteTask (IdInt (id row)) srv1))) =
    tasks_table (db (boot 1 2 3)).
Proof.
  assert (H : exact_for 1 (db (boot 1 2 3))) by exact_tac.
  split; [exact H |].
  destruct (createTask_then_deleteTask 4 "A" (boot 1 2 3) H)
    as [row [srv1 [Hc [Ht _]]]].
  exists row, srv1. split; [exact Hc | exact Ht].
Defined.

Lemma set_status_twice (i : ID) (s1 s2 : string) (r : Task) :
  set_status i s2 (set_status i s1 r) = set_status i s2 r.
Proof.
  unfold set_status, id_matches.
  destruct (rowid_of i) as [z |]; simpl; [| reflexivity].
  destruct (id r =? z) eqn:E; simpl; now rewrite E.
Qed.

(** Two updateTaskStatus calls on the same id: the last write wins.  The
    database and the row returned are those of the second call alone; in
    particular repeating a call changes nothing more. *)
Theorem updateTaskStatus_last_write_wins
    (i : ID) (s1 s2 : string) (srv : Server) :
  let srv1 := snd (Mutation.updateTaskStatus i s1 srv) in
  db (snd (Mutation.updateTaskStatus i s2 srv1)) =
  db (snd (Mutation.updateTaskStatus i s2 srv)) /\
  fst (Mutation.updateTaskStatus i s2 srv1) =
  fst (Mutation.updateTaskStatus i s2 srv).
Proof.
  assert (H : map (set_status i s2)
                (map (set_status i s1) (tasks_table (db srv))) =
              map (set_status i s2) (tasks_table (db srv))).
  { rewrite map_map. apply map_ext. intros r. apply set_status_twice. }
  simpl. unfold sql_update_status, sql_select_by_id; simpl.
  rewrite H. split; reflexivity.
Qed.

Lemma set_status_swap (i j : ID) (s s' : string) (r : Task) :
  rowid_of i <> rowid_of j ->
  set_status j s' (set_status i s r) = set_status i s (set_status j s' r).
Proof.
  intros Hij. unfold set_status, id_matches.
  destruct (rowid_of i) as [zi |], (rowid_of j) as [zj |]; simpl;
    try reflexivity;
    try (now destruct (id r =? zi)); try (now destruct (id r =? zj)).
  destruct (Z.eqb_spec (id r) zi) as [Ei | Ei],
           (Z.eqb_spec (id r) zj) as [Ej | Ej]; simpl;
    rewrite ?(proj2 (Z.eqb_eq _ _) Ei), ?(proj2 (Z.eqb_eq _ _) Ej),
            ?(proj2 (Z.eqb_neq _ _) Ei), ?(proj2 (Z.eqb_neq _ _) Ej);
    try reflexivity.
  congruence.
Qed.

(** updateTaskStatus calls on two different ids do not interfere: in
    either order they leave the same database. *)
Theorem updateTaskStatus_on_other_id_commutes
    (i j : ID) (s s' : string) (srv : Server) :
  rowid_of i <> rowid_of j ->
  db (snd (Mutation.updateTaskStatus j s'
             (snd (Mutation.updateTaskStatus i s srv)))) =
  db (snd (Mutation.updateTaskStatus i s
             (snd (Mutation.updateTaskStatus j s' srv)))).
Proof.
  intros Hij. simpl. unfold sql_update_status; simpl. f_equal.
  rewrite !map_map. apply map_ext. intros r. now apply set_status_swap.
Qed.

Lemma updateTaskStatus_on_other_id_commutes_witness :
  rowid_of (IdInt 1) <> rowid_of (IdInt 3) /\
  db (snd (Mutation.updateTaskStatus (IdInt 3) "todo"
             (snd (Mutation.updateTaskStatus (IdInt 1) "done"
                     (boot 1 2 3))))) =
  db (snd (Mutation.updateTaskStatus (IdInt 1) "done"
             (snd (Mutation.updateTaskStatus (IdInt 3) "todo"
                     (boot 1 2 3))))).
Proof.
  assert (H : rowid_of (IdInt 1) <> rowid_of (IdInt 3)) by discriminate.
  split; [exact H |].
  exact (updateTaskStatus_on_other_id_commutes
           (IdInt 1) (IdInt 3) "done" "todo" (boot 1 2 3) H).
Defined.

Lemma filter_map_set_status (i j : ID) (s : string) (rows : list Task) :
  filter (fun r => negb (id_matches j r)) (map (set_status i s) rows) =
  map (set_status i s) (filter (fun r => negb (id_matches j r)) rows).
Proof.
  induction rows as [| r rows IH]; simpl; [reflexivity |].
  rewrite id_matches_set_status.
  destruct (id_matches j r); simpl; now rewrite IH.
Qed.

(** deleteTask and updateTaskStatus, on the same id or on different ones,
    leave the same database in either order; and once an id is deleted an
    update of it resolves with no row and changes nothing. *)
Theorem deleteTask_and_updateTaskStatus_commute
    (i j : ID) (s : string) (srv : Server) :
  db (snd (Mutation.deleteTask j (snd (Mutation.updateTaskStatus i s srv)))) =
  db (snd (Mutation.updateTaskStatus i s (snd (Mutation.deleteTask j srv)))) /\
  (let srv1 := snd (Mutation.deleteTask i srv) in
   fst (Mutation.updateTaskStatus i s srv1) = Resolved None /\
   db (snd (Mutation.updateTaskStatus i s srv1)) = db srv1).
Proof.
  split.
  - simpl. unfold sql_delete, sql_update_status; simpl. f_equal.
    apply filter_map_set_status.
  - assert (H : Forall (fun r => id_matches i r = false)
                  (tasks_table (db (snd (Mutation.deleteTask i srv))))).
    { apply Forall_forall. intros r Hr. simpl in Hr.
      apply filter_In in Hr. now apply negb_true_iff. }
    cbn zeta. unfold Mutation.updateTaskStatus, sql_select_by_id; cbn [fst snd].
    unfold sql_update_status, with_db, publish; cbn [db tasks_table].
    rewrite (map_set_status_no_match _ _ _ H), (find_no_match _ _ H).
    split; [reflexivity |]. now destruct (sql_delete i (db srv)).
Qed.

(** ** The event log *)

Lemma execute_publishes (now : Z) (req : Request) (srv : Server) :
  exists evs,
    pubsub (snd (execute now req srv)) = pubsub srv ++ evs /\
    Forall (fun e => channel e = TASK_UPDATED) evs /\
    List.length evs =
    (if settled_mutation req (fst (execute now req srv)) then 1 else 0)%nat.
Proof.
  destruct req as [| t | i s | i]; simpl.
  - exists []. rewrite app_nil_r. repeat split. constructor.
  - destruct (createTask_cases now t srv) as [Hc | [v [Hv Hc]]]; rewrite Hc;
      simpl.
    + exists []. rewrite app_nil_r. repeat split. constructor.
    + eexists. split; [reflexivity |]. split; [| reflexivity].
      repeat constructor.
  - eexists. split; [reflexivity |]. split; [| reflexivity].
    repeat constructor.
  - eexists. split; [reflexivity |]. split; [| reflexivity].
    repeat constructor.
Qed.

(** Whatever requests are served, the event log only grows at its end, by
    one event per mutation whose promise resolved and by none for a query
    or a rejected mutation, and every event is on TASK_UPDATED. *)
Theorem serve_publishes_once_per_mutation
    (reqs : list (Z * Request)) (srv : Server) :
  exists evs,
    pubsub (snd (serve reqs srv)) = pubsub srv ++ evs /\
    Forall (fun e => channel e = TASK_UPDATED) evs /\
    List.length evs = settled_mutations reqs (fst (serve reqs srv)).
Proof.
  revert srv. induction reqs as [| [now req] reqs IH]; intros srv.
  - exists []. simpl. rewrite app_nil_r. repeat split. constructor.
  - cbn [serve].
    destruct (execute_publishes now req srv) as [e1 (H1 & H2 & H3)].
    destruct (execute now req srv) as [r srv1]; cbn [fst snd] in *.
    destruct (IH srv1) as [e2 (K1 & K2 & K3)].
    destruct (serve reqs srv1) as [rs srv2]; cbn [fst snd] in *.
    exists (e1 ++ e2). split; [| split].
    + now rewrite K1, H1, app_assoc.
    + apply Forall_app. now split.
    + rewrite length_app, H3, K3. unfold settled_mutations. simpl.
      destruct (settled_mutation req r); reflexivity.
Qed.

(** ** What a request leaves of a row *)

(** Title and created_at are written once.  After any request every row
    of the table either was there before under the same id with the same
    title and created_at, or is the row a createTask has just inserted:
    the title given, the clock reading, status 'todo', and an id that is
    above the counter and that no row had; and every row that was there is
    still there in that sense unless the request was a deleteTask of its
    id. *)
Theorem requests_keep_title_and_created_at
    (now : Z) (req : Request) (srv : Server) :
  let srv' := snd (execute now req srv) in
  Forall
    (fun r' =>
       (exists r, In r (tasks_table (db srv)) /\ id r' = id r /\
                  title r' = title r /\ created_at r' = created_at r) \/
       (exists t, req = ReqCreateTask t /\
                  title r' = t /\ created_at r' = now /\
                  status r' = "todo" /\
                  sqlite_sequence (db srv) < id r' /\
                  ~ In (id r') (ids (tasks_table (db srv)))))
    (tasks_table (db srv')) /\
  Forall
    (fun r =>
       (exists r', In r' (tasks_table (db srv')) /\ id r' = id r /\
                   title r' = title r /\ created_at r' = created_at r) \/
       (exists i, req = ReqDeleteTask i /\ rowid_of i = Some (id r)))
    (tasks_table (db srv)).
Proof.
  cbn zeta. rewrite !Forall_forall.
  destruct req as [| t | i s | i]; simpl.
  - split; intros r Hr; left; exists r; auto.
  - destruct (createTask_cases now t srv) as [Hc | [v [Hv Hc]]]; rewrite Hc;
      simpl.
    + split; intros r Hr; left; exists r; auto.
    + destruct (new_rowid_fresh _ _ Hv) as [Hfresh Hlt].
      split; intros r Hr.
      * apply in_app_or in Hr. destruct Hr as [Hr | [<- | []]].
        -- left. exists r. auto.
        -- right. exists t. simpl. repeat split; auto.
           now apply fresh_not_in.
      * left. exists r. split; [apply in_or_app; now left | auto].
  - split; intros r Hr.
    + apply in_map_iff in Hr. destruct Hr as [y [<- Hy]].
      destruct (set_status_changed_only i s y) as (H1 & H2 & H3 & _).
      left. exists y. auto.
    + destruct (set_status_changed_only i s r) as (H1 & H2 & H3 & _).
      left. exists (set_status i s r). split; [now apply in_map | auto].
  - split; intros r Hr.
    + apply filter_In in Hr. left. exists r. tauto.
    + destruct (id_matches i r) eqn:E.
      * right. exists i. split; [reflexivity |]. now apply id_matches_iff.
      * left. exists r. split; [| auto]. apply filter_In.
        split; [exact Hr |]. now rewrite E.
Qed.

(** ** The list when the clock moves on between creations *)







(** ** createTask is not rejected in practice *)

(** A server that has answered n requests since it booted, n + 4 at most
    2^53, still has rowids left and exact ones: createTask resolves with
    the row it inserted, whose id is at least 1 and at most n + 4. *)
Theorem createTask_resolves_after_requests
    (t1 t2 t3 : Z) (reqs : list (Z * Request)) (now : Z) (t : string) :
  Z.of_nat (List.length reqs) + 4 <= MAX_EXACT ->
  let srv := snd (serve reqs (boot t1 t2 t3)) in
  exists row srv',
    Mutation.createTask now t srv = (Resolved (Some row), srv') /\
    title row = t /\
    tasks_table (db srv') = tasks_table (db srv) ++ [row] /\
    1 <= id row <= Z.of_nat (List.length reqs) + 4.
Proof.
  intros Hle srv.
  pose proof (rowids_in_order_boot t1 t2 t3) as Hb.
  assert (H0 : 0 <= sqlite_sequence (db (boot t1 t2 t3))) by (simpl; lia).
  pose proof (counter_after_serve reqs _ Hb H0) as Hc.
  pose proof (rowids_in_order_serve reqs _ Hb) as Hinv.
  change (sqlite_sequence (db (boot t1 t2 t3))) with 3 in Hc.
  fold srv in Hc, Hinv.
  assert (Hex : exact_for 1 (db srv)).
  { destruct Hinv as [_ Hbound]. split; [lia |]. split; [lia |].
    eapply Forall_impl; [| exact Hbound]. simpl. intros; lia. }
  destruct (exact_new_rowid _ Hex) as [v [Hv Hvb]].
  assert (Hnext : v = sqlite_sequence (db srv) + 1)
    by (apply new_rowid_next; [exact Hinv | lia | exact Hv]).
  eexists. eexists.
  split; [apply (createTask_inserted now t srv v Hv); lia |].
  simpl. repeat split; lia.
Qed.

Lemma createTask_resolves_after_requests_witness :
  Z.of_nat (List.length [(4, ReqCreateTask "A"); (5, ReqTasks)]) + 4
  <= MAX_EXACT /\
  exists row srv',
    Mutation.createTask 6 "B"
      (snd (serve [(4, ReqCreateTask "A"); (5, ReqTasks)] (boot 1 2 3))) =
    (Resolved (Some row), srv') /\
    1 <= id row <=
    Z.of_nat (List.length [(4, ReqCreateTask "A"); (5, ReqTasks)]) + 4.
Proof.
  assert (H : Z.of_nat (List.length [(4, ReqCreateTask "A"); (5, ReqTasks)])
              + 4 <= MAX_EXACT) by (unfold MAX_EXACT; simpl; lia).
  split; [exact H |].
  destruct (createTask_resolves_after_requests
              1 2 3 [(4, ReqCreateTask "A"); (5, ReqTasks)] 6 "B" H)
    as [row [srv' (Hc & _ & _ & Hid)]].
  exists row, srv'. split; [exact Hc | exact Hid].
Defined.
